(** * ImpexInfo API server: blog CRUD handlers, contact form, startup sequence

  A shallow embedding of [server.js].  Every handler is a function from the
  request and the state of the outside world (the Mongo collection, the mail
  relay, the outcomes of connection attempts) to what the handler does: the
  response it sends or the error it forwards with [next], the new contents
  of the collection and the calls it makes.

  Request bodies and query strings carry the text fields of the data model
  and no other key: a field is either missing ([None], JavaScript's
  [undefined]) or a string.
  A string is the UTF-8 encoding of the JavaScript string, as it travels in
  the request: [Js.length] counts its UTF-16 code units, as JavaScript's
  [length] does, and [Js.trim] removes the white space of ECMAScript, of
  which some characters take two or three bytes. *)

From stdpp Require Import gmap strings list sorting.
From Equations Require Import Equations.
From Stdlib Require Import Ascii String ZArith Lia.

Local Open Scope string_scope.
Local Open Scope Z_scope.

(** ** JavaScript values the handlers test *)

Module Js.

(** [!!v] for a value that is [undefined] or a string: only [undefined]
    and the empty string are falsy. *)
Definition truthy (v : option string) : bool :=
  match v with
  | Some s => negb (String.eqb s "")
  | None => false
  end.

(** [a || b] where [b] is a string. *)
Definition or_else (a : option string) (b : string) : string :=
  match a with
  | Some s => if String.eqb s "" then b else s
  | None => b
  end.

(** [v === s] for a string literal [s]. *)
Definition strict_eq (v : option string) (s : string) : bool :=
  match v with
  | Some x => String.eqb x s
  | None => false
  end.

(** [`${v}`]: a missing value prints as [undefined]. *)
Definition interpolate (v : option string) : string :=
  match v with
  | Some s => s
  | None => "undefined"
  end.

(** White space and line terminators of ECMAScript, by the length of
    their UTF-8 encoding.  One byte: U+0009 to U+000D and U+0020. *)
Definition space1 (a : ascii) : bool :=
  let n := nat_of_ascii a in
  ((9 <=? n) && (n <=? 13))%nat || (n =? 32)%nat.

(** Two bytes: U+00A0 is C2 A0. *)
Definition space2 (a b : ascii) : bool :=
  ((nat_of_ascii a =? 194) && (nat_of_ascii b =? 160))%nat.

(** Three bytes: U+1680 is E1 9A 80; U+2000 to U+200A, U+2028, U+2029 and
    U+202F are E2 80 80 to 8A, A8, A9 and AF; U+205F is E2 81 9F; U+3000 is
    E3 80 80; U+FEFF is EF BB BF. *)
Definition space3 (a b c : ascii) : bool :=
  let x := nat_of_ascii a in
  let y := nat_of_ascii b in
  let z := nat_of_ascii c in
  (((x =? 225) && (y =? 154) && (z =? 128))
   || ((x =? 226) && (y =? 128)
       && (((128 <=? z) && (z <=? 138)) || (z =? 168) || (z =? 169)
           || (z =? 175)))
   || ((x =? 226) && (y =? 129) && (z =? 159))
   || ((x =? 227) && (y =? 128) && (z =? 128))
   || ((x =? 239) && (y =? 187) && (z =? 191)))%nat.

(** Removes the white space a sequence of bytes starts with; [two] and
    [three] recognise the characters of two and three bytes. *)
Fixpoint strip (two : ascii -> ascii -> bool)
    (three : ascii -> ascii -> ascii -> bool) (l : list ascii) : list ascii :=
  match l with
  | a :: l1 =>
      if space1 a then strip two three l1
      else
        match l1 with
        | b :: l2 =>
            if two a b then strip two three l2
            else
              match l2 with
              | c :: l3 => if three a b c then strip two three l3 else l
              | [] => l
              end
        | [] => l
        end
  | [] => []
  end.

Definition trimStart : list ascii -> list ascii := strip space2 space3.

(** The same from the end, on the reversed bytes. *)
Definition trimEnd (l : list ascii) : list ascii :=
  rev (strip (fun a b => space2 b a) (fun a b c => space3 c b a) (rev l)).

(** [String.prototype.trim]. *)
Definition trim (s : string) : string :=
  string_of_list_ascii (trimEnd (trimStart (list_ascii_of_string s))).

(** The UTF-16 code units a byte of UTF-8 starts: one for a character of
    one, two or three bytes, two for a character of four bytes (a surrogate
    pair), none for a continuation byte. *)
Definition units (a : ascii) : nat :=
  let n := nat_of_ascii a in
  if (n <? 128)%nat then 1%nat
  else if (n <? 192)%nat then 0%nat
  else if (n <? 240)%nat then 1%nat
  else 2%nat.

(** [s.length]. *)
Definition length (s : string) : nat :=
  list_sum (units <$> list_ascii_of_string s).

Fixpoint join (sep : string) (l : list string) : string :=
  match l with
  | [] => ""
  | [s] => s
  | s :: l' => s ++ sep ++ join sep l'
  end.

Definition dquote : string := String (ascii_of_nat 34) "".

End Js.

(** ** Errors, responses and the error middleware *)

Module Http.

(** A thrown [Error]: [name], [message], and for a Mongoose
    [ValidationError] the per-path messages of [error.errors]. *)
Record Error := {
  name : string;
  message : string;
  errors : list (string * string)
}.

(** The first line of [err.stack]; the frames below it are left out. *)
Definition stack (e : Error) : string :=
  if String.eqb (message e) "" then name e else name e ++ ": " ++ message e.

Inductive result (A : Type) :=
| Ok (a : A)
| Throw (e : Error).
Arguments Ok {A} a.
Arguments Throw {A} e.

Section Envelope.

(** The type of the documents a response carries. *)
Variable Doc : Type.

(** The JSON bodies the server sends. *)
Inductive Json :=
| ListBody (count : nat) (data : list Doc)  (* {success: true, count, data} *)
| DataBody (data : option Doc)              (* {success: true, data}, None is null *)
| EmptyDataBody                             (* {success: true, data: {}} *)
| MessageBody (message : string)            (* {success: true, message} *)
| ErrorBody (error : string)                (* {success: false, error} *)
| ErrorsBody (error : list string)          (* {success: false, error: [...]} *)
| HandlerErrorBody (error : string) (stack : option string).
                                            (* {success: false, error, stack} *)

Definition success (j : Json) : bool :=
  match j with
  | ListBody _ _ | DataBody _ | EmptyDataBody | MessageBody _ => true
  | ErrorBody _ | ErrorsBody _ | HandlerErrorBody _ _ => false
  end.

Record Response := { statusCode : Z; json : Json }.

(** What a handler does with [res] and [next]. *)
Inductive Outcome :=
| Sent (r : Response)
| Next (e : Error).

(** [errorHandler]: [resStatus] is [res.statusCode] when the error
    arrives, [production] is [NODE_ENV === 'production']. *)
Definition errorHandler (production : bool) (err : Error) (resStatus : Z)
  : Response :=
  let statusCode := if resStatus =? 200 then 500 else resStatus in
  {| statusCode := statusCode;
     json := HandlerErrorBody
               (if String.eqb (message err) "" then "Server Error"
                else message err)
               (if production then None else Some (stack err)) |}.

(** The response the client receives.  No handler sets [res.status]
    before it calls [next], so the middleware sees the default 200. *)
Definition respond (production : bool) (o : Outcome) : Response :=
  match o with
  | Sent r => r
  | Next e => errorHandler production e 200
  end.

End Envelope.

Arguments ListBody {Doc} count data.
Arguments DataBody {Doc} data.
Arguments EmptyDataBody {Doc}.
Arguments MessageBody {Doc} message.
Arguments ErrorBody {Doc} error.
Arguments ErrorsBody {Doc} error.
Arguments HandlerErrorBody {Doc} error stack.
Arguments success {Doc} j.
Arguments statusCode {Doc} r.
Arguments json {Doc} r.
Arguments Build_Response {Doc} statusCode json.
Arguments Sent {Doc} r.
Arguments Next {Doc} e.
Arguments errorHandler {Doc} production err resStatus.
Arguments respond {Doc} production o.

End Http.

(** ** Requests *)

(** [req.body] of the blog routes. *)
Module Body.
Record t := {
  title : option string;
  description : option string;
  category : option string;
  status : option string;
  imageUrl : option string
}.
End Body.

(** [req.query] of [GET /api/blogs], and the filter handed to [Blog.find]. *)
Module Query.
Record t := {
  status : option string;
  category : option string
}.
End Query.

(** ** The Blog model: schema and collection

    [BlogSchema] and the five operations the handlers call on the model.
    The operations are Mongoose's, applied to this schema: a string is cast
    to an ObjectId before a lookup and a failed cast throws [CastError];
    [trim] is applied before the validators; [required] rejects a missing
    or empty string; update validators run only on the paths an update
    sets; a validation failure throws [ValidationError] with one message
    per failing path, in the order of the schema, and writes nothing. *)

Module Store.
Import Http.

(** The cast of a string to an ObjectId, which Mongoose applies before a
    lookup: [None] when the string is no ObjectId, otherwise the ObjectId,
    written as the hexadecimal string under which the collection keeps the
    document.  Two spellings of one ObjectId (upper and lower case digits)
    are cast to the same one.  The driver decides the format; the handlers
    only see a [CastError] when the cast fails. *)
Class ObjectIdFormat := castObjectId : string -> option string.

Definition isValidObjectId `{ObjectIdFormat} (id : string) : bool :=
  match castObjectId id with
  | Some _ => true
  | None => false
  end.

(** The paths of [BlogSchema] with the two timestamps. *)
Record BlogFields := {
  title : string;
  description : string;
  category : string;
  imageUrl : string;
  status : string;
  createdAt : Z;
  updatedAt : Z
}.

(** A document as the handlers see it: its [_id] and its paths. *)
Record Blog := { _id : string; fields : BlogFields }.

(** The operations of the model, as the handlers call them; [DeleteOne]
    carries the [_id] of the document it is called on. *)
Inductive Call :=
| Find (filter : Query.t)
| FindById (id : string)
| Create (body : Body.t)
| FindByIdAndUpdate (id : string) (body : Body.t)
| DeleteOne (id : string).

(** The collection maps each [_id] to the paths of its document; [calls]
    records the operations performed on the model, oldest first. *)
Record Collection := {
  docs : gmap string BlogFields;
  calls : list Call
}.

Definition called (c : Call) (db : Collection) : Collection :=
  {| docs := docs db; calls := (calls db ++ [c])%list |}.

Definition documents (db : Collection) : list Blog :=
  (fun kv => {| _id := kv.1; fields := kv.2 |}) <$> map_to_list (docs db).

(** *** Schema validation *)

Definition statusEnum : list string := ["published"; "draft"].

(** [required] on a trimmed string path, then the further check [more]. *)
Definition checkRequired (msg : string) (more : string -> string + string)
  (v : option string) : string + string :=
  match v with
  | Some s => let s' := Js.trim s in
              if String.eqb s' "" then inl msg else more s'
  | None => inl msg
  end.

Definition checkTitle : option string -> string + string :=
  checkRequired "Blog title is required"
    (fun s => if (Js.length s <=? 100)%nat then inr s
              else inl "Title cannot be more than 100 characters").

Definition checkDescription : option string -> string + string :=
  checkRequired "Blog description is required" inr.

Definition checkCategory : option string -> string + string :=
  checkRequired "Blog category is required" inr.

Definition checkImageUrl : option string -> string + string :=
  checkRequired "Blog image URL is required" inr.

Definition inEnum (s : string) : bool :=
  existsb (String.eqb s) statusEnum.

Definition enumMessage (s : string) : string :=
  "`" ++ s ++ "` is not a valid enum value for path `status`.".

(** [enum], no [required], no [trim]. *)
Definition checkEnum (s : string) : string + string :=
  if inEnum s then inr s else inl (enumMessage s).

(** On a new document a missing status takes the default. *)
Definition checkStatus (v : option string) : string + string :=
  match v with
  | Some s => checkEnum s
  | None => inr "draft"
  end.

Definition pathError {A} (path : string) (r : string + A)
  : list (string * string) :=
  match r with
  | inl msg => [(path, msg)]
  | inr _ => []
  end.

Definition ValidationError (prefix : string) (errs : list (string * string))
  : Error :=
  {| name := "ValidationError";
     message := prefix ++ ": " ++
                Js.join ", " ((fun pm => pm.1 ++ ": " ++ pm.2) <$> errs);
     errors := errs |}.

Definition CastError (id : string) : Error :=
  {| name := "CastError";
     message := "Cast to ObjectId failed for value " ++ Js.dquote ++ id ++
                Js.dquote ++ " (type string) at path " ++ Js.dquote ++ "_id" ++
                Js.dquote ++ " for model " ++ Js.dquote ++ "Blog" ++ Js.dquote;
     errors := [] |}.

Definition DuplicateKeyError (id : string) : Error :=
  {| name := "MongoServerError";
     message := "E11000 duplicate key error collection: blogs index: _id_ dup key: " ++ id;
     errors := [] |}.

(** The document built from a body: each path cast, trimmed and validated;
    either the document or the messages of the failing paths. *)
Definition newDocument (body : Body.t) (now : Z)
  : list (string * string) + BlogFields :=
  let t := checkTitle (Body.title body) in
  let d := checkDescription (Body.description body) in
  let c := checkCategory (Body.category body) in
  let i := checkImageUrl (Body.imageUrl body) in
  let s := checkStatus (Body.status body) in
  match t, d, c, i, s with
  | inr t', inr d', inr c', inr i', inr s' =>
      inr {| title := t'; description := d'; category := c'; imageUrl := i';
             status := s'; createdAt := now; updatedAt := now |}
  | _, _, _, _, _ =>
      inl (pathError "title" t ++ pathError "description" d ++
           pathError "category" c ++ pathError "imageUrl" i ++
           pathError "status" s)%list
  end.

(** Update validators run on the paths the update sets and on no other. *)
Definition checkSet (check : option string -> string + string)
  (v : option string) : string + option string :=
  match v with
  | Some s => match check (Some s) with
              | inl msg => inl msg
              | inr s' => inr (Some s')
              end
  | None => inr None
  end.

(** The [$set] document of an update: the paths of [body] cast, trimmed
    and validated; either it or the messages of the failing paths. *)
Definition castUpdate (body : Body.t) : list (string * string) + Body.t :=
  let t := checkSet checkTitle (Body.title body) in
  let d := checkSet checkDescription (Body.description body) in
  let c := checkSet checkCategory (Body.category body) in
  let i := checkSet checkImageUrl (Body.imageUrl body) in
  let s := checkSet checkStatus (Body.status body) in
  match t, d, c, i, s with
  | inr t', inr d', inr c', inr i', inr s' =>
      inr {| Body.title := t'; Body.description := d'; Body.category := c';
             Body.status := s'; Body.imageUrl := i' |}
  | _, _, _, _, _ =>
      inl (pathError "title" t ++ pathError "description" d ++
           pathError "category" c ++ pathError "imageUrl" i ++
           pathError "status" s)%list
  end.

Definition assign (v : option string) (old : string) : string :=
  match v with
  | Some s => s
  | None => old
  end.

(** The document after [$set]; the timestamps plugin moves [updatedAt]. *)
Definition applyUpdate (u : Body.t) (now : Z) (old : BlogFields)
  : BlogFields :=
  {| title := assign (Body.title u) (title old);
     description := assign (Body.description u) (description old);
     category := assign (Body.category u) (category old);
     imageUrl := assign (Body.imageUrl u) (imageUrl old);
     status := assign (Body.status u) (status old);
     createdAt := createdAt old;
     updatedAt := now |}.

(** *** Model operations *)

Section Model.
Context `{ObjectIdFormat}.

(** The conditions as the query casts them: the setters of the schema run
    on them too, so a category is trimmed; the status path has no setter. *)
Definition castFilter (filter : Query.t) : Query.t :=
  {| Query.status := Query.status filter;
     Query.category := Js.trim <$> Query.category filter |}.

Definition matches (filter : Query.t) (b : Blog) : bool :=
  match Query.status filter with
  | Some s => String.eqb (status (fields b)) s
  | None => true
  end &&
  match Query.category filter with
  | Some s => String.eqb (category (fields b)) s
  | None => true
  end.

(** [sort({ createdAt: -1 })]: newest first. *)
Definition newestFirst (a b : Blog) : Prop :=
  createdAt (fields b) <= createdAt (fields a).

#[export] Instance newestFirst_dec : RelDecision newestFirst.
Proof. intros a b. unfold newestFirst. apply _. Defined.

(** [Blog.find(filter).sort({ createdAt: -1 })].  The store answers every
    query: a lost connection, which would make the call reject, is not
    part of the model. *)
Definition find (filter : Query.t) (db : Collection)
  : result (list Blog) * Collection :=
  (Ok (merge_sort newestFirst
         (List.filter (matches (castFilter filter)) (documents db))),
   called (Find filter) db).

(** [Blog.findById(id)]: the document whose [_id] is the ObjectId the
    string is cast to. *)
Definition findById (id : string) (db : Collection)
  : result (option Blog) * Collection :=
  let db' := called (FindById id) db in
  match castObjectId id with
  | Some oid =>
      (Ok ((fun f => {| _id := oid; fields := f |}) <$> docs db !! oid), db')
  | None => (Throw (CastError id), db')
  end.

(** [Blog.create(body)]: [oid] is the ObjectId the driver generates, [now]
    the time of the call. *)
Definition create (oid : string) (now : Z) (body : Body.t) (db : Collection)
  : result Blog * Collection :=
  let db' := called (Create body) db in
  match newDocument body now with
  | inl errs => (Throw (ValidationError "Blog validation failed" errs), db')
  | inr f =>
      match docs db !! oid with
      | Some _ => (Throw (DuplicateKeyError oid), db')
      | None => (Ok {| _id := oid; fields := f |},
                 {| docs := <[oid := f]> (docs db); calls := calls db' |})
      end
  end.

(** [Blog.findByIdAndUpdate(id, body, { new: true, runValidators: true })]:
    the id is cast, the update is cast and validated, and only then is the
    collection written. *)
Definition findByIdAndUpdate (id : string) (now : Z) (body : Body.t)
  (db : Collection) : result (option Blog) * Collection :=
  let db' := called (FindByIdAndUpdate id body) db in
  match castObjectId id with
  | Some oid =>
      match castUpdate body with
      | inl errs => (Throw (ValidationError "Validation failed" errs), db')
      | inr u =>
          match docs db !! oid with
          | Some old =>
              let f := applyUpdate u now old in
              (Ok (Some {| _id := oid; fields := f |}),
               {| docs := <[oid := f]> (docs db); calls := calls db' |})
          | None => (Ok None, db')
          end
      end
  | None => (Throw (CastError id), db')
  end.

(** [blog.deleteOne()] *)
Definition deleteOne (blog : Blog) (db : Collection)
  : result unit * Collection :=
  let db' := called (DeleteOne (_id blog)) db in
  (Ok (), {| docs := delete (_id blog) (docs db); calls := calls db' |}).

End Model.

End Store.

(** ** Blog controller *)

Module BlogController.
Import Http Store.

Definition MissingFields : Response Blog :=
  {| statusCode := 400;
     json := ErrorBody
       "Please provide title, description, category, status, and imageUrl" |}.

Definition InvalidStatus : Response Blog :=
  {| statusCode := 400;
     json := ErrorBody
       ("Status must be either " ++ Js.dquote ++ "published" ++ Js.dquote ++
        " or " ++ Js.dquote ++ "draft" ++ Js.dquote) |}.

Definition NotFound : Response Blog :=
  {| statusCode := 404; json := ErrorBody "Blog not found" |}.

Definition InvalidIdentifier : Response Blog :=
  {| statusCode := 400; json := ErrorBody "Invalid blog ID format" |}.

(** [Object.values(error.errors).map(val => val.message)] with status 400. *)
Definition ValidationFailed (error : Error) : Response Blog :=
  {| statusCode := 400; json := ErrorsBody (snd <$> errors error) |}.

Section Handlers.
Context `{ObjectIdFormat}.

(** The [try] and [catch] of [getBlogs] around the query: the list is
    sent with its length, a rejection goes to [next]. *)
Definition getBlogsAnswer (found : result (list Blog)) : Outcome Blog :=
  match found with
  | Ok blogs =>
      Sent {| statusCode := 200; json := ListBody (List.length blogs) blogs |}
  | Throw error => Next error
  end.

(** [getBlogs]: [GET /api/blogs] *)
Definition getBlogs (query : Query.t) (db : Collection)
  : Outcome Blog * Collection :=
  let filter :=
    {| Query.status :=
         if Js.truthy (Query.status query) then Query.status query else None;
       Query.category :=
         if Js.truthy (Query.category query) then Query.category query
         else None |} in
  match find filter db with
  | (found, db') => (getBlogsAnswer found, db')
  end.

(** The [catch] of [getBlog] and of [deleteBlog]: a failed cast of the
    id is answered, any other error goes to [next]. *)
Definition catchLookup (error : Error) : Outcome Blog :=
  if String.eqb (name error) "CastError" then Sent InvalidIdentifier
  else Next error.

(** The [catch] of [updateBlog]. *)
Definition catchUpdate (error : Error) : Outcome Blog :=
  if String.eqb (name error) "CastError" then Sent InvalidIdentifier
  else if String.eqb (name error) "ValidationError"
  then Sent (ValidationFailed error)
  else Next error.

(** [getBlog]: [GET /api/blog/:id] *)
Definition getBlog (id : string) (db : Collection)
  : Outcome Blog * Collection :=
  match findById id db with
  | (Ok None, db') => (Sent NotFound, db')
  | (Ok (Some blog), db') =>
      (Sent {| statusCode := 200; json := DataBody (Some blog) |}, db')
  | (Throw error, db') => (catchLookup error, db')
  end.

(** [createBlog]: [POST /api/blog/new] *)
Definition createBlog (oid : string) (now : Z) (body : Body.t)
  (db : Collection) : Outcome Blog * Collection :=
  if negb (Js.truthy (Body.title body)) ||
     negb (Js.truthy (Body.description body)) ||
     negb (Js.truthy (Body.category body)) ||
     negb (Js.truthy (Body.status body)) ||
     negb (Js.truthy (Body.imageUrl body))
  then (Sent MissingFields, db)
  else if negb (Js.strict_eq (Body.status body) "published") &&
          negb (Js.strict_eq (Body.status body) "draft")
  then (Sent InvalidStatus, db)
  else
    match create oid now body db with
    | (Ok blog, db') =>
        (Sent {| statusCode := 201; json := DataBody (Some blog) |}, db')
    | (Throw error, db') =>
        if String.eqb (name error) "ValidationError"
        then (Sent (ValidationFailed error), db')
        else (Next error, db')
    end.

(** [updateBlog]: [PUT /api/blog/:id] *)
Definition updateBlog (id : string) (now : Z) (body : Body.t)
  (db : Collection) : Outcome Blog * Collection :=
  match findById id db with
  | (Ok None, db1) => (Sent NotFound, db1)
  | (Ok (Some _), db1) =>
      match findByIdAndUpdate id now body db1 with
      | (Ok blog, db2) =>
          (Sent {| statusCode := 200; json := DataBody blog |}, db2)
      | (Throw error, db2) => (catchUpdate error, db2)
      end
  | (Throw error, db1) => (catchUpdate error, db1)
  end.

(** [deleteBlog]: [DELETE /api/blog/:id] *)
Definition deleteBlog (id : string) (db : Collection)
  : Outcome Blog * Collection :=
  match findById id db with
  | (Ok None, db1) => (Sent NotFound, db1)
  | (Ok (Some blog), db1) =>
      match deleteOne blog db1 with
      | (Ok _, db2) =>
          (Sent {| statusCode := 200; json := EmptyDataBody |}, db2)
      | (Throw error, db2) => (catchLookup error, db2)
      end
  | (Throw error, db1) => (catchLookup error, db1)
  end.

End Handlers.

End BlogController.

(** ** Contact controller *)

Module Contact.
Import Http.

(** [req.body] of [POST /api/contact]. *)
Record Body := {
  name : option string;
  email : option string;
  phone : option string;
  message : option string
}.

(** [process.env] as the mail code reads it. *)
Record Env := {
  EMAIL_USER : option string;
  EMAIL_PASS : option string;
  ADMIN_EMAIL : option string
}.

(** The argument of [nodemailer.createTransport].  It sets no [pool]
    option, so the transport is not pooled. *)
Record TransportConfig := {
  service : string;
  host : string;
  port : Z;
  secure : bool;
  user : option string;
  pass : option string
}.

(** The two HTML bodies are fixed templates; a rendered body is the
    template together with the four values substituted into it. *)
Inductive Template := userEmailHtml | adminEmailHtml.

Record Html := {
  template : Template;
  htmlName : string;
  htmlEmail : string;
  htmlPhone : string;
  htmlMessage : string
}.

Record MailOptions := {
  fromName : string;
  fromAddress : option string;
  to : option string;
  replyTo : option string;
  subject : string;
  html : Html;
  text : string;
  headers : list (string * string)
}.

(** [nodemailer]: the transporter made from a configuration, and for each
    message whether [sendMail] resolves ([None]) or rejects. *)
Definition Nodemailer := TransportConfig -> MailOptions -> option Error.

(** What the handler does to the mail relay and the console, and what the
    transport does to the relay on its behalf, in order. *)
Inductive Event :=
| CreateTransport (config : TransportConfig)
| SendMail (options : MailOptions)
| OpenConnection
| CloseConnection
| ConsoleLog (line : string)
| ConsoleError (line : string).

(** [transporter.sendMail(options)] on a transport that is not pooled:
    [createTransport] connects to nothing; each message gets a connection
    of its own, which the transport opens when [sendMail] is called and
    closes before the promise settles, whether the relay took the message,
    refused it or could not be reached. *)
Definition sendMail (options : MailOptions) : list Event :=
  [SendMail options; OpenConnection; CloseConnection].

Definition MissingFields : Response Empty_set :=
  {| statusCode := 400;
     json := ErrorBody "Please provide name, email and message" |}.

Definition Success : Response Empty_set :=
  {| statusCode := 200;
     json := MessageBody "Your message has been sent successfully!" |}.

Definition gmail (env : Env) : TransportConfig :=
  {| service := "gmail"; host := "smtp.gmail.com"; port := 465;
     secure := true; user := EMAIL_USER env; pass := EMAIL_PASS env |}.

Definition notProvidedSpan : string :=
  "<span style=" ++ Js.dquote ++ "color: #6c757d; font-style: italic;" ++
  Js.dquote ++ ">Not provided</span>".

Definition userMailOptions (env : Env) (body : Body) : MailOptions :=
  {| fromName := "ImpexInfo Support";
     fromAddress := EMAIL_USER env;
     to := email body;
     replyTo := EMAIL_USER env;
     subject := "Thank you for contacting ImpexInfo";
     html := {| template := userEmailHtml;
                htmlName := Js.interpolate (name body);
                htmlEmail := Js.interpolate (email body);
                htmlPhone := Js.or_else (phone body) "Not provided";
                htmlMessage := Js.interpolate (message body) |};
     text := "Dear " ++ Js.interpolate (name body) ++
             ", Thank you for contacting Impex Info. We have received your message and will get back to you shortly.";
     headers :=
       [("X-Priority", "1"); ("Importance", "high");
        ("List-Unsubscribe",
         "<mailto:" ++ Js.interpolate (EMAIL_USER env) ++
         "?subject=unsubscribe>");
        ("Precedence", "bulk")] |}.

Definition adminMailOptions (env : Env) (body : Body) : MailOptions :=
  {| fromName := "Contact Form";
     fromAddress := EMAIL_USER env;
     to := ADMIN_EMAIL env;
     replyTo := None;
     subject := "New Contact Form Submission from " ++
                Js.interpolate (name body);
     html := {| template := adminEmailHtml;
                htmlName := Js.interpolate (name body);
                htmlEmail := Js.interpolate (email body);
                htmlPhone := Js.or_else (phone body) notProvidedSpan;
                htmlMessage := Js.interpolate (message body) |};
     text := "New contact from " ++ Js.interpolate (name body) ++ " (" ++
             Js.interpolate (email body) ++ "): " ++
             Js.interpolate (message body);
     headers := [] |}.

(** [submitContactForm]: [POST /api/contact].  The result is what the
    handler does with [res] and [next], and its calls in order. *)
Definition submitContactForm (env : Env) (nodemailer : Nodemailer)
  (body : Body) : Outcome Empty_set * list Event :=
  if negb (Js.truthy (name body)) ||
     negb (Js.truthy (email body)) ||
     negb (Js.truthy (message body))
  then (Sent MissingFields, [])
  else
    let transporter := nodemailer (gmail env) in
    let user :=
      match transporter (userMailOptions env body) with
      | None => [ConsoleLog "User confirmation email sent successfully"]
      | Some userEmailError =>
          [ConsoleError "Error sending user confirmation email:"]
      end in
    let before :=
      ([CreateTransport (gmail env)] ++ sendMail (userMailOptions env body) ++
       user ++ sendMail (adminMailOptions env body))%list in
    match transporter (adminMailOptions env body) with
    | None =>
        (Sent Success,
         (before ++
          [ConsoleLog "Admin notification email sent successfully"])%list)
    | Some adminEmailError =>
        (Next adminEmailError,
         (before ++
          [ConsoleError "Error sending admin notification email:";
           ConsoleError "Email sending error:"])%list)
    end.

End Contact.

(** ** Startup

    [startServer] and the [ConnectDB] timers it leaves behind.  The
    listeners on the driver's connection events, of which [disconnected]
    calls [ConnectDB] too, are in [Driver] below. *)

Module Startup.

(** How [app.listen(port)] ends for a port from 0 to 65535: the listening
    callback runs, or the server emits [error] with [err.code] ([None]
    when the error has no code).  For any other number [app.listen]
    throws; the probe moves upwards by one and stops at 65535, so only the
    port it starts from can be such a number. *)
Inductive ListenResult :=
| Listening
| ListenError (code : option string).

(** What the process does to the outside world, in order. *)
Inductive Event :=
| Verify (ok : bool)          (* transporter.verify() and how it settled *)
| Connect (ok : bool)         (* mongoose.connect(...) and how it settled *)
| SetTimeout (ms : Z)         (* setTimeout(ConnectDB, ms) *)
| Listen (port : Z)           (* app.listen(port, ...) *)
| Exit (code : Z)             (* process.exit(code) *)
| Delayed.                    (* the log line of the else branch of startServer *)

Inductive Server :=
| NotListening
| Running (port : Z)
| Exited (code : Z).

(** The two status flags, the pending [ConnectDB] timers (their delays),
    the HTTP server, and the events so far. *)
Record Process := {
  emailServerStatus : bool;
  dbStatus : bool;
  timers : list Z;
  server : Server;
  events : list Event
}.

(** What the outside world answers: the mail relay check, every
    [mongoose.connect] in the order the calls are made, every bind, and
    [parseInt(PORT)] ([None] is NaN). *)
Record World := {
  verify : bool;
  connects : list bool;
  listen : Z -> ListenResult;
  parsedPort : option Z
}.

Definition boot : Process :=
  {| emailServerStatus := false; dbStatus := false; timers := [];
     server := NotListening; events := [] |}.

Definition emit (e : Event) (p : Process) : Process :=
  {| emailServerStatus := emailServerStatus p; dbStatus := dbStatus p;
     timers := timers p; server := server p;
     events := (events p ++ [e])%list |}.

(** [verifyEmailServer] *)
Definition verifyEmailServer (ok : bool) (p : Process) : bool * Process :=
  let p := emit (Verify ok) p in
  (ok, {| emailServerStatus := ok; dbStatus := dbStatus p;
          timers := timers p; server := server p; events := events p |}).

(** [ConnectDB]: on failure the retry is scheduled 5000 ms later. *)
Definition ConnectDB (ok : bool) (p : Process) : bool * Process :=
  let p := emit (Connect ok) p in
  if ok then
    (true, {| emailServerStatus := emailServerStatus p; dbStatus := true;
              timers := timers p; server := server p; events := events p |})
  else
    let p := emit (SetTimeout 5000) p in
    (false, {| emailServerStatus := emailServerStatus p; dbStatus := false;
               timers := (timers p ++ [5000])%list; server := server p;
               events := events p |}).

(** [tryPort]: the events of the probe and the state it leaves the server
    in.  The recursion stops at 65535 at the latest. *)
Equations? tryPort (listen : Z -> ListenResult) (port : Z)
  : list Event * Server by wf (Z.to_nat (65535 - port)) lt :=
tryPort listen port with listen port => {
  | Listening => ([Listen port], Running port)
  | ListenError code with Js.strict_eq code "EADDRINUSE" => {
    | true with Z_lt_dec port 65535 => {
      | left _ =>
          let next := tryPort listen (port + 1) in
          (Listen port :: next.1, next.2)
      | right _ => ([Listen port; Exit 1], Exited 1) }
    | false => ([Listen port; Exit 1], Exited 1) } }.
Proof. lia. Qed.

(** [parseInt(PORT) || 8000] *)
Definition initialPort (w : World) : Z :=
  match parsedPort w with
  | Some n => if n =? 0 then 8000 else n
  | None => 8000
  end.

(** [process.exit] has been called. *)
Definition exited (p : Process) : bool :=
  match server p with
  | Exited _ => true
  | _ => false
  end.

(** The timers of the event loop: while the process lives, each pending
    [ConnectDB] timer fires and makes the next connection attempt; the
    value [ConnectDB] returns to the timer is dropped. *)
Fixpoint runTimers (outcomes : list bool) (p : Process) : Process :=
  match outcomes with
  | [] => p
  | ok :: later =>
      if exited p then p
      else
        match timers p with
        | [] => p
        | _ :: pending =>
            runTimers later
              (ConnectDB ok
                 {| emailServerStatus := emailServerStatus p;
                    dbStatus := dbStatus p; timers := pending;
                    server := server p; events := events p |}).2
        end
  end.

(** [startServer], followed by the timers it left behind. *)
Definition startServer (w : World) : Process :=
  let p := (verifyEmailServer (verify w) boot).2 in
  match connects w with
  | [] => p
  | ok :: later =>
      let (isConnected, p) := ConnectDB ok p in
      let p :=
        if isConnected then
          let probe := tryPort (listen w) (initialPort w) in
          {| emailServerStatus := emailServerStatus p; dbStatus := dbStatus p;
             timers := timers p; server := probe.2;
             events := (events p ++ probe.1)%list |}
        else emit Delayed p in
      runTimers later p
  end.

(** The port-binding step has been performed. *)
Definition bindAttempted (p : Process) : bool :=
  existsb (fun e => match e with Listen _ => true | _ => false end) (events p).

(** Some connection attempt has succeeded. *)
Definition connected (p : Process) : bool :=
  existsb (fun e => match e with Connect true => true | _ => false end)
    (events p).

End Startup.

(** ** Sample data *)

Module Sample.
Import Store.

(** Twenty-four hexadecimal digits, the usual spelling of an ObjectId. *)
Definition isHex (c : ascii) : bool :=
  let n := nat_of_ascii c in
  ((48 <=? n) && (n <=? 57) || (65 <=? n) && (n <=? 70) ||
   (97 <=? n) && (n <=? 102))%nat.

Definition lower (c : ascii) : ascii :=
  let n := nat_of_ascii c in
  if ((65 <=? n) && (n <=? 70))%nat then ascii_of_nat (n + 32) else c.

(** The cast keeps the ObjectId in lower case, as the driver prints it. *)
Definition hex24 : ObjectIdFormat :=
  fun id =>
    if (String.length id =? 24)%nat && forallb isHex (list_ascii_of_string id)
    then Some (string_of_list_ascii (lower <$> list_ascii_of_string id))
    else None.

Definition id1 : string := "65f1a2b3c4d5e6f708192a3b".

(** [id1] in upper case: another spelling of the same ObjectId. *)
Definition ID1 : string := "65F1A2B3C4D5E6F708192A3B".
Definition id2 : string := "65f1a2b3c4d5e6f708192a3c".
Definition id3 : string := "65f1a2b3c4d5e6f708192a3d".

Definition post (t c s : string) (at_ : Z) : BlogFields :=
  {| title := t; description := "text"; category := c;
     imageUrl := "http://x/1.png"; status := s;
     createdAt := at_; updatedAt := at_ |}.

Definition blogs : Collection :=
  {| docs := <[id1 := post "A" "news" "draft" 10]>
             (<[id2 := post "B" "trade" "published" 30]>
              (<[id3 := post "C" "news" "draft" 20]> ∅));
     calls := [] |}.

Definition empty : Collection := {| docs := ∅; calls := [] |}.

(** U+00A0, the no-break space, and U+4E2D, a character of three bytes. *)
Definition nbsp : string :=
  String (ascii_of_nat 194) (String (ascii_of_nat 160) "").

Definition zhong : string :=
  String (ascii_of_nat 228) (String (ascii_of_nat 184)
    (String (ascii_of_nat 173) "")).

Fixpoint times (n : nat) (s : string) : string :=
  match n with
  | O => ""
  | S n' => s ++ times n' s
  end.

Definition titled (t : string) : Body.t :=
  {| Body.title := Some t; Body.description := Some "B";
     Body.category := Some "C"; Body.status := Some "draft";
     Body.imageUrl := Some "http://x/1.png" |}.

Definition draftBody : Body.t :=
  {| Body.title := Some "A"; Body.description := Some "B";
     Body.category := Some "C"; Body.status := Some "draft";
     Body.imageUrl := Some "http://x/1.png" |}.

Definition withStatus (s : option string) : Body.t :=
  {| Body.title := Some "A"; Body.description := Some "B";
     Body.category := Some "C"; Body.status := s;
     Body.imageUrl := Some "http://x/1.png" |}.

Definition onlyStatus (s : string) : Body.t :=
  {| Body.title := None; Body.description := None; Body.category := None;
     Body.status := Some s; Body.imageUrl := None |}.

Definition env : Contact.Env :=
  {| Contact.EMAIL_USER := Some "me@example.org";
     Contact.EMAIL_PASS := Some "app-password";
     Contact.ADMIN_EMAIL := Some "admin@example.org" |}.

Definition ann : Contact.Body :=
  {| Contact.name := Some "Ann"; Contact.email := Some "ann@example.org";
     Contact.phone := None; Contact.message := Some "hello" |}.

Definition relayDown : Http.Error :=
  {| Http.name := "Error"; Http.message := "connect ECONNREFUSED";
     Http.errors := [] |}.

(** A relay that takes every message. *)
Definition relayUp : Contact.Nodemailer := fun _ _ => None.

(** A relay that rejects the confirmation and takes the notification. *)
Definition userRejected : Contact.Nodemailer :=
  fun _ options =>
    match Contact.template (Contact.html options) with
    | Contact.userEmailHtml => Some relayDown
    | Contact.adminEmailHtml => None
    end.

(** A relay that takes the confirmation and rejects the notification. *)
Definition adminRejected : Contact.Nodemailer :=
  fun _ options =>
    match Contact.template (Contact.html options) with
    | Contact.userEmailHtml => None
    | Contact.adminEmailHtml => Some relayDown
    end.

(** The store is down at startup and up at the first retry; every port is
    free. *)
Definition lateStore : Startup.World :=
  {| Startup.verify := true; Startup.connects := [false; true];
     Startup.listen := fun _ => Startup.Listening;
     Startup.parsedPort := Some 8000 |}.

(** Ports below 8002 are taken. *)
Definition busyBelow8002 (port : Z) : Startup.ListenResult :=
  if port <? 8002 then Startup.ListenError (Some "EADDRINUSE")
  else Startup.Listening.

Definition allBusy (port : Z) : Startup.ListenResult :=
  Startup.ListenError (Some "EADDRINUSE").

Definition denied (port : Z) : Startup.ListenResult :=
  Startup.ListenError (Some "EACCES").

End Sample.

(** ** Handler-level notions used to state the properties *)

Module Notions.

(** A field is provided when the handlers' test [!field] lets it through:
    it is there and it is not the empty string. *)
Definition provided (v : option string) : Prop := Js.truthy v = true.

(** The five fields [createBlog] requires. *)
Definition required (body : Body.t) : list (option string) :=
  [Body.title body; Body.description body; Body.category body;
   Body.status body; Body.imageUrl body].

(** The status is one of the two values of the enumeration. *)
Definition statusAllowed (v : option string) : Prop :=
  v = Some "published" \/ v = Some "draft".

(** [b] is a document of the collection. *)
Definition stored (db : Store.Collection) (b : Store.Blog) : Prop :=
  Store.docs db !! Store._id b = Some (Store.fields b).

(** [b] matches the filters of the query: a filter that is given (the
    handler's test again: there and not empty) must agree with the
    document, one that is not given asks nothing.  The status is compared
    as it is given; the category is compared without the white space
    around it, which no stored category has. *)
Definition selects (query : Query.t) (b : Store.Blog) : Prop :=
  (forall s, Query.status query = Some s -> s <> "" ->
             Store.status (Store.fields b) = s) /\
  (forall s, Query.category query = Some s -> s <> "" ->
             Store.category (Store.fields b) = Js.trim s).

(** A list of documents is in descending order of creation time: of two
    of its entries, the later one was not created after the earlier one. *)
Definition descendingByCreation (data : list Store.Blog) : Prop :=
  forall (i j : nat) (a b : Store.Blog),
    (i < j)%nat -> data !! i = Some a -> data !! j = Some b ->
    Store.createdAt (Store.fields b) <= Store.createdAt (Store.fields a).

(** A mail-relay session is a connection to the relay: it is acquired
    when the connection is opened and released when it is closed.
    [sessions events held] is the number of sessions held after [events],
    when [held] were held before; [None] when a connection is closed that
    was never opened. *)
Fixpoint sessions (events : list Contact.Event) (held : nat) : option nat :=
  match events with
  | Contact.OpenConnection :: later => sessions later (S held)
  | Contact.CloseConnection :: later =>
      match held with
      | S held' => sessions later held'
      | O => None
      end
  | _ :: later => sessions later held
  | [] => Some held
  end.

(** Every session acquired in the course of the events has been released
    by their end. *)
Definition released (events : list Contact.Event) : bool :=
  bool_decide (sessions events 0 = Some 0%nat).


(** The messages handed to the transport, in order. *)
Definition messages (events : list Contact.Event)
  : list Contact.MailOptions :=
  omap (fun e => match e with
                 | Contact.SendMail options => Some options
                 | _ => None
                 end) events.

(** The filter [getBlogs] builds from the query. *)
Definition filterOf (query : Query.t) : Query.t :=
  {| Query.status :=
       if Js.truthy (Query.status query) then Query.status query else None;
     Query.category :=
       if Js.truthy (Query.category query) then Query.category query
       else None |}.

End Notions.

(** ** The listeners on the driver's connection events

    [mongoose.connection.on("error" | "disconnected" | "connected", ...)].
    A tick is one callback of the event loop after [startServer]: a pending
    [ConnectDB] timer fires, or the driver raises one of the three events.
    A connection attempt is taken with its outcome, as in [Startup]. *)

Module Driver.
Import Startup.

Definition setDbStatus (status : bool) (p : Process) : Process :=
  {| emailServerStatus := emailServerStatus p; dbStatus := status;
     timers := timers p; server := server p; events := events p |}.

(** [on("error")] *)
Definition onError (p : Process) : Process := setDbStatus false p.

(** [on("disconnected")]: the flag is cleared and [ConnectDB] is called. *)
Definition onDisconnected (ok : bool) (p : Process) : Process :=
  (ConnectDB ok (setDbStatus false p)).2.

(** [on("connected")] *)
Definition onConnected (p : Process) : Process := setDbStatus true p.

Inductive Tick :=
| TimerFires (ok : bool)
| Error
| Disconnected (ok : bool)
| Connected.

(** One callback; nothing runs once [process.exit] has been called, and a
    timer tick with no timer pending is no callback at all. *)
Definition step (t : Tick) (p : Process) : Process :=
  if exited p then p
  else
    match t with
    | TimerFires ok =>
        match timers p with
        | [] => p
        | _ :: pending =>
            (ConnectDB ok
               {| emailServerStatus := emailServerStatus p;
                  dbStatus := dbStatus p; timers := pending;
                  server := server p; events := events p |}).2
        end
    | Error => onError p
    | Disconnected ok => onDisconnected ok p
    | Connected => onConnected p
    end.

Definition run (ticks : list Tick) (p : Process) : Process :=
  fold_left (fun p t => step t p) ticks p.

End Driver.

(** ** Notions for the further properties *)

Module Schema.
Import Store.

(** What [BlogSchema] asks of a stored document. *)
Definition validFields (f : BlogFields) : Prop :=
  title f <> "" /\ (Js.length (title f) <= 100)%nat /\
  description f <> "" /\ category f <> "" /\ imageUrl f <> "" /\
  (status f = "published" \/ status f = "draft").

Definition validCollection (db : Collection) : Prop :=
  forall id f, docs db !! id = Some f -> validFields f.

(** A string [trim] leaves as it is. *)
Definition trimmed (s : string) : Prop := Js.trim s = s.

(** The bytes [l] start with no white space; [two] and [three] recognise
    the white space of two and three bytes. *)
Definition startsClean (two : ascii -> ascii -> bool)
    (three : ascii -> ascii -> ascii -> bool) (l : list ascii) : Prop :=
  match l with
  | a :: l1 =>
      Js.space1 a = false /\
      match l1 with
      | b :: l2 =>
          two a b = false /\
          match l2 with
          | c :: _ => three a b c = false
          | [] => True
          end
      | [] => True
      end
  | [] => True
  end.

(** The text paths of a document carry no white space at either end. *)
Definition trimmedFields (f : BlogFields) : Prop :=
  trimmed (title f) /\ trimmed (description f) /\
  trimmed (category f) /\ trimmed (imageUrl f).

(** The bind failed because the address is in use. *)
Definition inUse : Startup.ListenResult :=
  Startup.ListenError (Some "EADDRINUSE").

Definition trimmedCollection (db : Collection) : Prop :=
  forall id f, docs db !! id = Some f -> trimmedFields f.

(** The ports of the [Listen] events, in order. *)
Definition portsTried (events : list Startup.Event) : list Z :=
  omap (fun e => match e with Startup.Listen port => Some port | _ => None end)
    events.

Definition count (P : Startup.Event -> bool) (events : list Startup.Event)
  : nat :=
  List.length (List.filter P events).

Definition isRetry (e : Startup.Event) : bool :=
  match e with Startup.SetTimeout _ => true | _ => false end.

Definition isFailedConnect (e : Startup.Event) : bool :=
  match e with Startup.Connect false => true | _ => false end.

(** The process [p] seen from a start with another mail flag and with the
    events [pre] before its own. *)
Definition rebased (email : bool) (pre : list Startup.Event)
  (p : Startup.Process) : Startup.Process :=
  {| Startup.emailServerStatus := email;
     Startup.dbStatus := Startup.dbStatus p;
     Startup.timers := Startup.timers p;
     Startup.server := Startup.server p;
     Startup.events := (pre ++ Startup.events p)%list |}.

(** The bookkeeping of the retries: every retry is scheduled 5000 ms
    ahead; there are as many retries scheduled as connection attempts
    that failed; the pending timers are retries, each 5000 ms. *)
Definition retryBookkeeping (p : Startup.Process) : Prop :=
  (forall ms, In (Startup.SetTimeout ms) (Startup.events p) -> ms = 5000) /\
  count isRetry (Startup.events p)
    = count isFailedConnect (Startup.events p) /\
  (forall ms, In ms (Startup.timers p) -> ms = 5000) /\
  (List.length (Startup.timers p) <= count isRetry (Startup.events p))%nat.

(** A field that is there and is only white space. *)
Definition blank (v : option string) : Prop :=
  exists raw, v = Some raw /\ Js.trim raw = "".

(** A title that is longer than the schema allows, once trimmed. *)
Definition tooLong (v : option string) : Prop :=
  exists raw, v = Some raw /\ (100 < Js.length (Js.trim raw))%nat.

(** What the update validators accept of a field an update sets; a field
    the update does not set is accepted. *)
Definition okTitle (v : option string) : Prop :=
  forall raw, v = Some raw ->
    Js.trim raw <> "" /\ (Js.length (Js.trim raw) <= 100)%nat.

Definition okText (v : option string) : Prop :=
  forall raw, v = Some raw -> Js.trim raw <> "".

Definition okStatus (v : option string) : Prop :=
  forall s, v = Some s -> s = "published" \/ s = "draft".

Definition acceptableUpdate (body : Body.t) : Prop :=
  okTitle (Body.title body) /\ okText (Body.description body) /\
  okText (Body.category body) /\ okText (Body.imageUrl body) /\
  okStatus (Body.status body).

(** The value of a trimmed path after an update. *)
Definition setTo (v : option string) (old : string) : string :=
  match v with
  | Some raw => Js.trim raw
  | None => old
  end.

(** The document an accepted update leaves. *)
Definition updated (body : Body.t) (now : Z) (old : Store.BlogFields)
  : Store.BlogFields :=
  {| Store.title := setTo (Body.title body) (Store.title old);
     Store.description := setTo (Body.description body) (Store.description old);
     Store.category := setTo (Body.category body) (Store.category old);
     Store.imageUrl := setTo (Body.imageUrl body) (Store.imageUrl old);
     Store.status := match Body.status body with
                     | Some s => s
                     | None => Store.status old
                     end;
     Store.createdAt := Store.createdAt old;
     Store.updatedAt := now |}.

(** [b] is in the [data] of the answer of [getBlogs] to [query]. *)
Definition listed (query : Query.t) (db : Store.Collection) (b : Store.Blog)
  : Prop :=
  exists count data,
    (BlogController.getBlogs query db).1
      = Http.Sent {| Http.statusCode := 200;
                     Http.json := Http.ListBody count data |} /\
    b ∈ data.

(** No stored document is older than its last update. *)
Definition timestampsOrdered (db : Store.Collection) : Prop :=
  forall id f, Store.docs db !! id = Some f ->
    Store.createdAt f <= Store.updatedAt f.

(** The status codes with [success: true]. *)
Definition is2xx (code : Z) : Prop := code = 200 \/ code = 201.

End Schema.

(** * Properties *)

(** ** JavaScript tests *)

Module JsFacts.
Import Js.

Lemma truthy_Some_iff s : truthy (Some s) = true <-> s <> "".
Proof.
  unfold truthy. destruct (String.eqb_spec s ""); simpl; split; congruence.
Qed.

Lemma truthy_inv v : truthy v = true -> exists s, v = Some s /\ s <> "".
Proof.
  destruct v as [s|]; [|discriminate].
  intros Hs. exists s. split; [reflexivity|]. by apply truthy_Some_iff.
Qed.

Lemma falsy_inv v : truthy v = false -> v = None \/ v = Some "".
Proof.
  destruct v as [s|]; [|by left].
  unfold truthy. destruct (String.eqb_spec s ""); [subst; by right|discriminate].
Qed.

Lemma strict_eq_iff v s : strict_eq v s = true <-> v = Some s.
Proof.
  destruct v as [x|]; simpl; [|split; discriminate].
  destruct (String.eqb_spec x s); split; congruence.
Qed.

Lemma strict_eq_false v s : strict_eq v s = false <-> v <> Some s.
Proof.
  rewrite <- strict_eq_iff. destruct (strict_eq v s); split; congruence.
Qed.

End JsFacts.

(** ** Create *)

Module CreateSpec.
Import Http Store BlogController Notions.

(** The presence test of [createBlog], as one boolean. *)
Lemma presence_test body :
  negb (Js.truthy (Body.title body)) ||
  negb (Js.truthy (Body.description body)) ||
  negb (Js.truthy (Body.category body)) ||
  negb (Js.truthy (Body.status body)) ||
  negb (Js.truthy (Body.imageUrl body)) = false
  <-> Forall provided (required body).
Proof.
  unfold required, provided. rewrite !Forall_cons, Forall_nil.
  destruct (Js.truthy (Body.title body)), (Js.truthy (Body.description body)),
    (Js.truthy (Body.category body)), (Js.truthy (Body.status body)),
    (Js.truthy (Body.imageUrl body)); simpl; intuition congruence.
Qed.

Lemma presence_test_fails body :
  ~ Forall provided (required body) ->
  negb (Js.truthy (Body.title body)) ||
  negb (Js.truthy (Body.description body)) ||
  negb (Js.truthy (Body.category body)) ||
  negb (Js.truthy (Body.status body)) ||
  negb (Js.truthy (Body.imageUrl body)) = true.
Proof.
  intros Hn. apply not_false_iff_true. intros Hf. by apply Hn, presence_test.
Qed.

Lemma status_test body :
  negb (Js.strict_eq (Body.status body) "published") &&
  negb (Js.strict_eq (Body.status body) "draft") = false
  <-> statusAllowed (Body.status body).
Proof.
  unfold statusAllowed. rewrite <- !JsFacts.strict_eq_iff.
  destruct (Js.strict_eq _ "published"), (Js.strict_eq _ "draft");
    simpl; intuition congruence.
Qed.

Lemma create_called oid now body db :
  calls (create oid now body db).2 = (calls db ++ [Create body])%list.
Proof.
  unfold create. destruct (newDocument body now); [reflexivity|].
  destruct (docs db !! oid); reflexivity.
Qed.

(** The three branches of [createBlog]. *)
Lemma createBlog_missing oid now body db :
  ~ Forall provided (required body) ->
  createBlog oid now body db = (Sent MissingFields, db).
Proof.
  intros Hp. unfold createBlog. by rewrite (presence_test_fails _ Hp).
Qed.

Lemma createBlog_invalid oid now body db :
  Forall provided (required body) -> ~ statusAllowed (Body.status body) ->
  createBlog oid now body db = (Sent InvalidStatus, db).
Proof.
  intros Hp Hs. unfold createBlog. rewrite (proj2 (presence_test body) Hp).
  destruct (negb (Js.strict_eq (Body.status body) "published") &&
            negb (Js.strict_eq (Body.status body) "draft")) eqn:Ht; [done|].
  by apply status_test in Ht.
Qed.

Lemma createBlog_creates oid now body db :
  Forall provided (required body) -> statusAllowed (Body.status body) ->
  createBlog oid now body db =
    match create oid now body db with
    | (Ok blog, db') =>
        (Sent {| statusCode := 201; json := DataBody (Some blog) |}, db')
    | (Throw error, db') =>
        if String.eqb (name error) "ValidationError"
        then (Sent (ValidationFailed error), db')
        else (Next error, db')
    end.
Proof.
  intros Hp Hs. unfold createBlog.
  by rewrite (proj2 (presence_test body) Hp), (proj2 (status_test body) Hs).
Qed.

Lemma createBlog_creates_store oid now body db :
  Forall provided (required body) -> statusAllowed (Body.status body) ->
  (createBlog oid now body db).2 = (create oid now body db).2.
Proof.
  intros Hp Hs. rewrite (createBlog_creates _ _ _ _ Hp Hs).
  destruct (create oid now body db) as [[blog|e] db']; simpl; [done|].
  by destruct (String.eqb (name e) "ValidationError").
Qed.

Lemma MissingFields_not_InvalidStatus : MissingFields <> InvalidStatus.
Proof.
  intros Heq. apply (f_equal json) in Heq. vm_compute in Heq.
  discriminate Heq.
Qed.

(** C3.  [createBlog] checks presence and the status value before it
    touches the model.  A field counts as present when it passes the
    handler's own test, that is when it is a non-empty string.
    - When one of title, description, category, status, imageUrl is not
      present, the response is MissingFields (400) and the collection and
      the list of model calls are as before.
    - When all five are present and status is neither "published" nor
      "draft", the response is InvalidStatus (400) and again nothing
      changed.
    - A request reaches [Blog.create] exactly when it passes both checks:
      then the handler performs that one call and nothing else, and
      otherwise it performs none. *)
Theorem createBlog_validates_before_store oid now body db :
  (~ Forall provided (required body) ->
     createBlog oid now body db = (Sent MissingFields, db)) /\
  (Forall provided (required body) -> ~ statusAllowed (Body.status body) ->
     createBlog oid now body db = (Sent InvalidStatus, db)) /\
  (Forall provided (required body) -> statusAllowed (Body.status body) ->
     (createBlog oid now body db).2 = (create oid now body db).2 /\
     calls (createBlog oid now body db).2 = (calls db ++ [Create body])%list) /\
  ((createBlog oid now body db).2 <> db ->
     Forall provided (required body) /\ statusAllowed (Body.status body)).
Proof.
  split; [apply createBlog_missing|].
  split; [apply createBlog_invalid|].
  split.
  - intros Hp Hs. split; [by apply createBlog_creates_store|].
    rewrite (createBlog_creates_store _ _ _ _ Hp Hs). apply create_called.
  - intros Hne.
    destruct (decide (Forall provided (required body))) as [Hp|Hp].
    2:{ by rewrite (createBlog_missing _ _ _ _ Hp) in Hne. }
    destruct (decide (statusAllowed (Body.status body))) as [Hs|Hs]; [done|].
    by rewrite (createBlog_invalid _ _ _ _ Hp Hs) in Hne.
Qed.

Lemma createBlog_validates_before_store_witness :
  createBlog Sample.id1 5 (Sample.withStatus None) Sample.empty
    = (Sent MissingFields, Sample.empty) /\
  createBlog Sample.id1 5 (Sample.withStatus (Some "archived")) Sample.empty
    = (Sent InvalidStatus, Sample.empty) /\
  calls (createBlog Sample.id1 5 Sample.draftBody Sample.empty).2
    = [Create Sample.draftBody].
Proof.
  split; [|split].
  - apply (createBlog_validates_before_store
             Sample.id1 5 (Sample.withStatus None) Sample.empty).
    intros Hf. apply presence_test in Hf. discriminate Hf.
  - apply (createBlog_validates_before_store
             Sample.id1 5 (Sample.withStatus (Some "archived")) Sample.empty).
    + apply presence_test. reflexivity.
    + intros [Hs|Hs]; discriminate Hs.
  - apply (createBlog_validates_before_store
             Sample.id1 5 Sample.draftBody Sample.empty).
    + apply presence_test. reflexivity.
    + right. reflexivity.
Defined.

(** C9.  The presence test of [createBlog] takes every falsy value for a
    missing one.  A request in which one of the five required fields is the
    empty string (status included) gets MissingFields (400), as does one in
    which a field is missing; so the handler answers InvalidStatus only
    when status is a non-empty string other than "published" and
    "draft". *)
Theorem createBlog_falsy_is_missing oid now body db :
  (In (Some "") (required body) ->
     createBlog oid now body db = (Sent MissingFields, db)) /\
  (forall v, In v (required body) -> Js.truthy v = false ->
     createBlog oid now body db = (Sent MissingFields, db)) /\
  ((createBlog oid now body db).1 = Sent InvalidStatus ->
     exists s, Body.status body = Some s /\
               s <> "" /\ s <> "published" /\ s <> "draft").
Proof.
  assert (forall v, In v (required body) -> Js.truthy v = false ->
            createBlog oid now body db = (Sent MissingFields, db)) as Hfalsy.
  { intros v Hin Hv. apply createBlog_missing.
    intros Hall. rewrite Forall_forall in Hall.
    apply list_elem_of_In, Hall in Hin. unfold provided in Hin. congruence. }
  split; [|split]; [|exact Hfalsy|].
  - intros Hin. exact (Hfalsy _ Hin eq_refl).
  - intros Hres.
    destruct (decide (Forall provided (required body))) as [Hp|Hp].
    2:{ rewrite (createBlog_missing _ _ _ _ Hp) in Hres. simpl in Hres.
        exfalso. apply MissingFields_not_InvalidStatus. congruence. }
    destruct (decide (statusAllowed (Body.status body))) as [Hs|Hs].
    { exfalso. revert Hres. rewrite (createBlog_creates _ _ _ _ Hp Hs).
      destruct (create oid now body db) as [[blog|e] db']; simpl;
        [discriminate|].
      destruct (String.eqb (name e) "ValidationError"); discriminate. }
    assert (provided (Body.status body)) as Hst.
    { unfold required in Hp. rewrite !Forall_cons in Hp. tauto. }
    apply JsFacts.truthy_inv in Hst as (s & Hs1 & Hs2).
    exists s. unfold statusAllowed in Hs. rewrite Hs1 in Hs.
    repeat split; [done|done|..]; intros ->; tauto.
Qed.

Lemma createBlog_falsy_is_missing_witness :
  createBlog Sample.id1 5 (Sample.withStatus (Some "")) Sample.empty
    = (Sent MissingFields, Sample.empty) /\
  exists s, Body.status (Sample.withStatus (Some "archived")) = Some s /\
            s <> "" /\ s <> "published" /\ s <> "draft".
Proof.
  split.
  - apply (createBlog_falsy_is_missing
             Sample.id1 5 (Sample.withStatus (Some "")) Sample.empty).
    simpl. tauto.
  - apply (createBlog_falsy_is_missing
             Sample.id1 5 (Sample.withStatus (Some "archived")) Sample.empty).
    reflexivity.
Defined.

(** [POST /api/blog/new] with a complete draft: 201 and the new document
    under the generated id. *)
Example createBlog_draft :
  (createBlog Sample.id1 5 Sample.draftBody Sample.empty).1
  = Sent {| statusCode := 201;
            json := DataBody (Some
              {| _id := Sample.id1;
                 fields := {| title := "A"; description := "B";
                              category := "C";
                              imageUrl := "http://x/1.png";
                              status := "draft";
                              createdAt := 5; updatedAt := 5 |} |}) |}.
Proof. reflexivity. Qed.

End CreateSpec.

(** ** Facts about the model operations *)

Module StoreFacts.
Import Http Store BlogController.

Section WithFormat.
Context `{ObjectIdFormat}.

Lemma isValidObjectId_false id :
  isValidObjectId id = false <-> castObjectId id = None.
Proof. unfold isValidObjectId. by destruct (castObjectId id). Qed.

Lemma isValidObjectId_true id :
  isValidObjectId id = true <-> exists oid, castObjectId id = Some oid.
Proof.
  unfold isValidObjectId. destruct (castObjectId id) as [oid|].
  - split; [by exists oid | done].
  - split; [done | by intros [? ?]].
Qed.

Lemma findById_malformed id db :
  castObjectId id = None ->
  findById id db = (Throw (CastError id), called (FindById id) db).
Proof. intros Hid. unfold findById. by rewrite Hid. Qed.

Lemma findById_wellformed id oid db :
  castObjectId id = Some oid ->
  findById id db =
    (Ok ((fun f => {| _id := oid; fields := f |}) <$> docs db !! oid),
     called (FindById id) db).
Proof. intros Hid. unfold findById. by rewrite Hid. Qed.

Lemma getBlog_malformed id db :
  castObjectId id = None ->
  getBlog id db = (Sent InvalidIdentifier, called (FindById id) db).
Proof. intros Hid. unfold getBlog. by rewrite findById_malformed. Qed.

Lemma updateBlog_malformed id now body db :
  castObjectId id = None ->
  updateBlog id now body db = (Sent InvalidIdentifier, called (FindById id) db).
Proof. intros Hid. unfold updateBlog. by rewrite findById_malformed. Qed.

Lemma deleteBlog_malformed id db :
  castObjectId id = None ->
  deleteBlog id db = (Sent InvalidIdentifier, called (FindById id) db).
Proof. intros Hid. unfold deleteBlog. by rewrite findById_malformed. Qed.

Lemma getBlog_absent id oid db :
  castObjectId id = Some oid -> docs db !! oid = None ->
  getBlog id db = (Sent NotFound, called (FindById id) db).
Proof.
  intros Hid Hno. unfold getBlog. rewrite (findById_wellformed id oid) by done.
  by rewrite Hno.
Qed.

Lemma updateBlog_absent id oid now body db :
  castObjectId id = Some oid -> docs db !! oid = None ->
  updateBlog id now body db = (Sent NotFound, called (FindById id) db).
Proof.
  intros Hid Hno. unfold updateBlog.
  rewrite (findById_wellformed id oid) by done.
  by rewrite Hno.
Qed.

Lemma deleteBlog_absent id oid db :
  castObjectId id = Some oid -> docs db !! oid = None ->
  deleteBlog id db = (Sent NotFound, called (FindById id) db).
Proof.
  intros Hid Hno. unfold deleteBlog.
  rewrite (findById_wellformed id oid) by done.
  by rewrite Hno.
Qed.

Lemma getBlog_found id oid db f :
  castObjectId id = Some oid -> docs db !! oid = Some f ->
  getBlog id db =
    (Sent {| statusCode := 200;
             json := DataBody (Some {| _id := oid; fields := f |}) |},
     called (FindById id) db).
Proof.
  intros Hid Hf. unfold getBlog. rewrite (findById_wellformed id oid) by done.
  by rewrite Hf.
Qed.

Lemma updateBlog_found id oid now body db f :
  castObjectId id = Some oid -> docs db !! oid = Some f ->
  updateBlog id now body db =
    match castUpdate body with
    | inl errs =>
        (Sent (ValidationFailed (ValidationError "Validation failed" errs)),
         called (FindByIdAndUpdate id body) (called (FindById id) db))
    | inr u =>
        (Sent {| statusCode := 200;
                 json := DataBody (Some {| _id := oid;
                                           fields := applyUpdate u now f |}) |},
         {| docs := <[oid := applyUpdate u now f]> (docs db);
            calls := (calls db ++ [FindById id] ++
                      [FindByIdAndUpdate id body])%list |})
    end.
Proof.
  intros Hid Hf. unfold updateBlog.
  rewrite (findById_wellformed id oid) by done.
  rewrite Hf. simpl. unfold findByIdAndUpdate. rewrite Hid. simpl.
  destruct (castUpdate body) as [errs|u]; [reflexivity|].
  rewrite Hf. simpl. by rewrite <- (assoc_L app).
Qed.

Lemma deleteBlog_found id oid db f :
  castObjectId id = Some oid -> docs db !! oid = Some f ->
  deleteBlog id db =
    (Sent {| statusCode := 200; json := EmptyDataBody |},
     {| docs := delete oid (docs db);
        calls := (calls db ++ [FindById id] ++ [DeleteOne oid])%list |}).
Proof.
  intros Hid Hf. unfold deleteBlog.
  rewrite (findById_wellformed id oid) by done.
  rewrite Hf. simpl. unfold deleteOne. simpl. by rewrite <- (assoc_L app).
Qed.

End WithFormat.

Lemma NotFound_not_InvalidIdentifier : NotFound <> InvalidIdentifier.
Proof. discriminate. Qed.

Lemma inEnum_false s : s <> "published" -> s <> "draft" -> inEnum s = false.
Proof.
  intros H1 H2. unfold inEnum, statusEnum. simpl.
  destruct (String.eqb_spec s "published"); [done|].
  by destruct (String.eqb_spec s "draft").
Qed.

Lemma castUpdate_bad_status body s :
  Body.status body = Some s -> inEnum s = false ->
  exists errs, castUpdate body = inl errs /\
               In ("status", enumMessage s) errs.
Proof.
  intros Hs He. unfold castUpdate. rewrite Hs.
  assert (checkSet checkStatus (Some s) = inl (enumMessage s)) as ->.
  { unfold checkSet, checkStatus, checkEnum. by rewrite He. }
  destruct (checkSet checkTitle _), (checkSet checkDescription _),
    (checkSet checkCategory _), (checkSet checkImageUrl _);
    eexists; (split; [reflexivity|]);
    rewrite !in_app_iff; simpl; tauto.
Qed.

End StoreFacts.

(** ** Identifiers: Get, Update, Delete *)

Module IdentifierSpec.
Import Http Store BlogController StoreFacts.

(** C4.  An identifier that is no ObjectId makes Get, Update and Delete
    each answer InvalidIdentifier (status 400), which is not the NotFound
    response (status 404).  Whenever one of the three answers NotFound,
    the identifier is well formed and the collection has no document
    under the ObjectId it is cast to. *)
Theorem malformed_id_is_InvalidIdentifier `{ObjectIdFormat} id now body db :
  (isValidObjectId id = false ->
     (getBlog id db).1 = Sent InvalidIdentifier /\
     (updateBlog id now body db).1 = Sent InvalidIdentifier /\
     (deleteBlog id db).1 = Sent InvalidIdentifier) /\
  (statusCode InvalidIdentifier = 400 /\ statusCode NotFound = 404 /\
   InvalidIdentifier <> NotFound) /\
  ((getBlog id db).1 = Sent NotFound \/
   (updateBlog id now body db).1 = Sent NotFound \/
   (deleteBlog id db).1 = Sent NotFound ->
     isValidObjectId id = true /\
     exists oid, castObjectId id = Some oid /\ docs db !! oid = None).
Proof.
  split; [|split].
  - intros Hid%isValidObjectId_false.
    by rewrite getBlog_malformed, updateBlog_malformed, deleteBlog_malformed.
  - repeat split. discriminate.
  - intros Hnf.
    destruct (castObjectId id) as [oid|] eqn:Hid.
    2:{ rewrite getBlog_malformed, updateBlog_malformed, deleteBlog_malformed
          in Hnf by done.
        simpl in Hnf. destruct Hnf as [Hnf|[Hnf|Hnf]]; discriminate Hnf. }
    split; [apply isValidObjectId_true; by exists oid|].
    exists oid. split; [reflexivity|].
    destruct (docs db !! oid) as [f|] eqn:Hf; [exfalso|reflexivity].
    rewrite (getBlog_found _ oid _ f), (updateBlog_found _ oid _ _ _ f),
      (deleteBlog_found _ oid _ f) in Hnf by done.
    destruct Hnf as [Hnf|[Hnf|Hnf]]; try discriminate Hnf.
    destruct (castUpdate body); discriminate Hnf.
Qed.

Lemma malformed_id_is_InvalidIdentifier_witness :
  ((@getBlog Sample.hex24 "42" Sample.blogs).1 = Sent InvalidIdentifier /\
   (@updateBlog Sample.hex24 "42" 50 Sample.draftBody Sample.blogs).1
     = Sent InvalidIdentifier /\
   (@deleteBlog Sample.hex24 "42" Sample.blogs).1 = Sent InvalidIdentifier) /\
  (@isValidObjectId Sample.hex24 Sample.ID1 = true /\
   exists oid, @castObjectId Sample.hex24 Sample.ID1 = Some oid /\
               docs Sample.empty !! oid = None).
Proof.
  split.
  - apply (@malformed_id_is_InvalidIdentifier
             Sample.hex24 "42" 50 Sample.draftBody Sample.blogs).
    reflexivity.
  - apply (@malformed_id_is_InvalidIdentifier
             Sample.hex24 Sample.ID1 50 Sample.draftBody Sample.empty).
    left. reflexivity.
Defined.

End IdentifierSpec.

(** ** Delete *)

Module DeleteSpec.
Import Http Store BlogController StoreFacts.

(** C5.  [deleteBlog] looks the document up before it removes anything;
    the document of an id is the one stored under the ObjectId the id is
    cast to.  The store is taken to answer the lookup and the removal, as
    the store of the model always does.
    - With a well-formed id that has no document, the answer is NotFound
      (404); the lookup is the only model call and the documents are as
      before.  Whatever the id, nothing is removed when it has no
      document.
    - A Delete that answers with a success envelope answers 200 with the
      empty payload; the id had a document; Delete looked it up, then
      removed it and no other; and a second Delete, of the same id or of
      another spelling of its ObjectId, answers NotFound and changes no
      document.
    - With a well-formed id that has a document, Delete does succeed.
    - Should the store reject a call, the [catch] answers
      InvalidIdentifier to a failed cast and forwards any other error to
      the middleware; it never answers NotFound. *)
Theorem deleteBlog_confirms_existence `{ObjectIdFormat} id db :
  (forall oid, castObjectId id = Some oid -> docs db !! oid = None ->
     deleteBlog id db = (Sent NotFound, called (FindById id) db) /\
     statusCode NotFound = 404) /\
  ((forall oid, castObjectId id = Some oid -> docs db !! oid = None) ->
     docs (deleteBlog id db).2 = docs db) /\
  (forall r, (deleteBlog id db).1 = Sent r -> success (json r) = true ->
     r = {| statusCode := 200; json := EmptyDataBody |} /\
     exists oid,
       castObjectId id = Some oid /\ is_Some (docs db !! oid) /\
       calls (deleteBlog id db).2
         = (calls db ++ [FindById id] ++ [DeleteOne oid])%list /\
       docs (deleteBlog id db).2 = delete oid (docs db) /\
       (forall id', castObjectId id' = Some oid ->
          (deleteBlog id' (deleteBlog id db).2).1 = Sent NotFound /\
          docs (deleteBlog id' (deleteBlog id db).2).2
            = docs (deleteBlog id db).2)) /\
  (forall oid, castObjectId id = Some oid -> is_Some (docs db !! oid) ->
     (deleteBlog id db).1
       = Sent {| statusCode := 200; json := EmptyDataBody |}) /\
  (forall error,
     (name error = "CastError" -> catchLookup error = Sent InvalidIdentifier) /\
     (name error <> "CastError" -> catchLookup error = Next error) /\
     catchLookup error <> Sent NotFound).
Proof.
  split; [|split; [|split; [|split]]].
  - intros oid Hid Hno. split; [by apply (deleteBlog_absent id oid)|done].
  - intros Hno. destruct (castObjectId id) as [oid|] eqn:Hid.
    + by rewrite (deleteBlog_absent id oid); [|done|apply Hno].
    + by rewrite deleteBlog_malformed.
  - intros r Hr Hok.
    destruct (castObjectId id) as [oid|] eqn:Hid.
    2:{ rewrite deleteBlog_malformed in Hr by done. simpl in Hr.
        inversion Hr; subst r. discriminate Hok. }
    destruct (docs db !! oid) as [f|] eqn:Hf.
    2:{ rewrite (deleteBlog_absent id oid) in Hr by done. simpl in Hr.
        inversion Hr; subst r. discriminate Hok. }
    rewrite (deleteBlog_found id oid _ f) in * by done. simpl in *.
    split; [congruence|]. exists oid.
    split; [done|]. split; [by rewrite Hf|]. split; [done|]. split; [done|].
    intros id' Hid'.
    rewrite (deleteBlog_absent id' oid); [done|done|].
    simpl. apply lookup_delete_eq.
  - intros oid Hid [f Hf]. by rewrite (deleteBlog_found id oid _ f).
  - intros error. unfold catchLookup.
    destruct (String.eqb_spec (name error) "CastError") as [He|He];
      repeat split; done.
Qed.

Lemma deleteBlog_confirms_existence_witness :
  (@deleteBlog Sample.hex24 Sample.id1 Sample.empty
     = (Sent NotFound, called (FindById Sample.id1) Sample.empty) /\
   statusCode NotFound = 404) /\
  (exists oid,
     @castObjectId Sample.hex24 Sample.ID1 = Some oid /\
     is_Some (docs Sample.blogs !! oid) /\
     calls (@deleteBlog Sample.hex24 Sample.ID1 Sample.blogs).2
       = (calls Sample.blogs ++ [FindById Sample.ID1] ++ [DeleteOne oid])%list /\
     docs (@deleteBlog Sample.hex24 Sample.ID1 Sample.blogs).2
       = delete oid (docs Sample.blogs) /\
     (forall id', @castObjectId Sample.hex24 id' = Some oid ->
        (@deleteBlog Sample.hex24 id'
           (@deleteBlog Sample.hex24 Sample.ID1 Sample.blogs).2).1
          = Sent NotFound /\
        docs (@deleteBlog Sample.hex24 id'
                (@deleteBlog Sample.hex24 Sample.ID1 Sample.blogs).2).2
          = docs (@deleteBlog Sample.hex24 Sample.ID1 Sample.blogs).2)) /\
  (@deleteBlog Sample.hex24 Sample.ID1 Sample.blogs).1
    = Sent {| statusCode := 200; json := EmptyDataBody |}.
Proof.
  split; [|split].
  - apply (proj1 (@deleteBlog_confirms_existence
                    Sample.hex24 Sample.id1 Sample.empty) Sample.id1);
      reflexivity.
  - apply (proj1 (proj2 (proj2 (@deleteBlog_confirms_existence
                           Sample.hex24 Sample.ID1 Sample.blogs)))
             {| statusCode := 200; json := EmptyDataBody |});
      vm_compute; reflexivity.
  - apply (proj1 (proj2 (proj2 (proj2 (@deleteBlog_confirms_existence
                           Sample.hex24 Sample.ID1 Sample.blogs))))
             Sample.id1); [reflexivity|].
    vm_compute. eexists. reflexivity.
Defined.

(** [DELETE /api/blog/65F1...3B] removes the document listed as
    [65f1...3b], and a second request, in either spelling, finds none. *)
Example deleteBlog_other_spelling :
  docs (@deleteBlog Sample.hex24 Sample.ID1 Sample.blogs).2 !! Sample.id1
    = None /\
  (@deleteBlog Sample.hex24 Sample.id1
     (@deleteBlog Sample.hex24 Sample.ID1 Sample.blogs).2).1 = Sent NotFound.
Proof. split; vm_compute; reflexivity. Qed.

End DeleteSpec.

(** ** Update *)

Module UpdateSpec.
Import Http Store BlogController StoreFacts.

(** C10.  [updateBlog] has no status check of its own, the schema's
    validators decide.  For an existing document and a body whose status
    is a string other than "published" and "draft", the answer is the
    ValidationFailed response: status 400 with the list of the validators'
    messages, the message for path status among them; nothing is written.
    No Update, whatever the request, answers InvalidStatus. *)
Theorem updateBlog_invalid_status_is_ValidationFailed `{ObjectIdFormat}
    id now body db :
  (forall oid old s,
     castObjectId id = Some oid -> docs db !! oid = Some old ->
     Body.status body = Some s -> s <> "published" -> s <> "draft" ->
     exists error,
       (updateBlog id now body db).1 = Sent (ValidationFailed error) /\
       name error = "ValidationError" /\
       statusCode (ValidationFailed error) = 400 /\
       (exists messages,
          json (ValidationFailed error) = ErrorsBody messages /\
          In (enumMessage s) messages) /\
       docs (updateBlog id now body db).2 = docs db) /\
  (updateBlog id now body db).1 <> Sent InvalidStatus.
Proof.
  split.
  - intros oid old s Hid Hold Hs Hp Hd.
    rewrite (updateBlog_found id oid _ _ _ old) by done.
    destruct (castUpdate_bad_status body s Hs (inEnum_false s Hp Hd))
      as (errs & -> & Hin).
    eexists. split; [reflexivity|]. split; [reflexivity|].
    split; [reflexivity|]. split; [|reflexivity].
    eexists. split; [reflexivity|]. simpl.
    apply (in_map snd) in Hin. exact Hin.
  - destruct (castObjectId id) as [oid|] eqn:Hid.
    2:{ by rewrite updateBlog_malformed. }
    destruct (docs db !! oid) as [f|] eqn:Hf.
    2:{ by rewrite (updateBlog_absent id oid). }
    rewrite (updateBlog_found id oid _ _ _ f) by done.
    destruct (castUpdate body); discriminate.
Qed.

Lemma updateBlog_invalid_status_is_ValidationFailed_witness :
  exists error,
    (@updateBlog Sample.hex24 Sample.ID1 50 (Sample.onlyStatus "archived")
       Sample.blogs).1 = Sent (ValidationFailed error) /\
    name error = "ValidationError" /\
    statusCode (ValidationFailed error) = 400 /\
    (exists messages,
       json (ValidationFailed error) = ErrorsBody messages /\
       In (enumMessage "archived") messages) /\
    docs (@updateBlog Sample.hex24 Sample.ID1 50
            (Sample.onlyStatus "archived") Sample.blogs).2
      = docs Sample.blogs.
Proof.
  apply (proj1 (@updateBlog_invalid_status_is_ValidationFailed
                  Sample.hex24 Sample.ID1 50 (Sample.onlyStatus "archived")
                  Sample.blogs)
           Sample.id1 (Sample.post "A" "news" "draft" 10) "archived");
    [reflexivity|vm_compute; reflexivity|reflexivity|discriminate|discriminate].
Defined.

(** [PUT /api/blog/:id] with [{status: "published"}] on a draft: 200, the
    status changed, [updatedAt] moved, the other paths as before. *)
Example updateBlog_publish :
  (@updateBlog Sample.hex24 Sample.id1 50 (Sample.onlyStatus "published")
     Sample.blogs).1
  = Sent {| statusCode := 200;
            json := DataBody (Some
              {| _id := Sample.id1;
                 fields := {| title := "A"; description := "text";
                              category := "news";
                              imageUrl := "http://x/1.png";
                              status := "published";
                              createdAt := 10; updatedAt := 50 |} |}) |}.
Proof. reflexivity. Qed.

End UpdateSpec.

(** ** List *)

Module ListSpec.
Import Http Store BlogController Notions.

#[local] Instance newestFirst_trans : Transitive newestFirst.
Proof. intros a b c. unfold newestFirst. lia. Qed.

#[local] Instance newestFirst_total : Total newestFirst.
Proof. intros a b. unfold newestFirst. lia. Qed.

Lemma elem_of_documents db b : b ∈ documents db <-> stored db b.
Proof.
  unfold documents, stored. rewrite list_elem_of_fmap. split.
  - intros ([k f] & -> & Hin). by apply elem_of_map_to_list in Hin.
  - intros Hb. exists (_id b, fields b). split; [by destruct b|].
    by apply elem_of_map_to_list.
Qed.

Lemma NoDup_documents db : NoDup (documents db).
Proof.
  unfold documents. apply NoDup_fmap_2; [|apply NoDup_map_to_list].
  intros [k1 f1] [k2 f2] Heq. by inversion Heq.
Qed.

Lemma given_matches (v : option string) (x : string) :
  match (if Js.truthy v then v else None) with
  | Some s => String.eqb x s
  | None => true
  end = true
  <-> (forall s, v = Some s -> s <> "" -> x = s).
Proof.
  destruct v as [s|]; simpl; [|by split].
  destruct (String.eqb_spec s "") as [->|Hne]; simpl.
  - split; [|done]. intros _ s [= <-]. done.
  - destruct (String.eqb_spec x s) as [Heq|Hx]; split; try done.
    + intros _ s' [= <-] _. exact Heq.
    + intros Hall. exfalso. by apply Hx, Hall.
Qed.

Lemma given_trimmed (v : option string) (x : string) :
  match Js.trim <$> (if Js.truthy v then v else None) with
  | Some s => String.eqb x s
  | None => true
  end = true
  <-> (forall s, v = Some s -> s <> "" -> x = Js.trim s).
Proof.
  destruct v as [s|]; simpl; [|by split].
  destruct (String.eqb_spec s "") as [->|Hne]; simpl.
  - split; [|done]. intros _ s [= <-]. done.
  - destruct (String.eqb_spec x (Js.trim s)) as [Heq|Hx]; split; try done.
    + intros _ s' [= <-] _. exact Heq.
    + intros Hall. exfalso. by apply Hx, Hall.
Qed.

Lemma matches_selects query b :
  matches (castFilter (filterOf query)) b = true <-> selects query b.
Proof.
  unfold matches, selects, castFilter, filterOf. simpl.
  rewrite andb_true_iff, given_matches, given_trimmed. done.
Qed.

Lemma StronglySorted_descending data :
  StronglySorted newestFirst data -> descendingByCreation data.
Proof.
  induction 1 as [|x l Hl IH Hx]; intros i j a b Hij Ha Hb.
  - by rewrite lookup_nil in Ha.
  - destruct j as [|j]; [lia|]. simpl in Hb.
    destruct i as [|i]; simpl in Ha.
    + injection Ha as <-.
      rewrite Forall_forall in Hx. apply (Hx b).
      by apply (list_elem_of_lookup_2 l j).
    + apply (IH i j); [lia|done|done].
Qed.

(** C6.  Whenever the store answers the query, as the store of the model
    always does, [getBlogs] answers 200 with the success envelope
    [{success, count, data}]: [data] holds exactly the documents of the
    collection that match the status and category filters given in the
    query (a filter that is not given asks nothing; a category is matched
    without the white space around it), each once, in descending order of
    [createdAt]; [count] is the length of [data]; no document is changed.
    A query nothing matches is answered the same way, with an empty
    [data].  Only when [Blog.find] rejects does [getBlogs] send nothing: it
    hands the error to the middleware. *)
Theorem getBlogs_lists_matching query db :
  (exists data,
     (getBlogs query db).1
       = Sent {| statusCode := 200;
                 json := ListBody (List.length data) data |} /\
     success (ListBody (List.length data) data) = true /\
     (forall b, b ∈ data <-> stored db b /\ selects query b) /\
     NoDup data /\
     descendingByCreation data /\
     ((forall b, stored db b -> ~ selects query b) -> data = []) /\
     docs (getBlogs query db).2 = docs db) /\
  (forall found data,
     getBlogsAnswer found
       = Sent {| statusCode := 200;
                 json := ListBody (List.length data) data |}
     <-> found = Ok data) /\
  (forall error, getBlogsAnswer (Throw error) = Next error).
Proof.
  split; [|split].
  - exists (merge_sort newestFirst
              (List.filter (matches (castFilter (filterOf query)))
                 (documents db))).
    assert (forall b,
      b ∈ merge_sort newestFirst
            (List.filter (matches (castFilter (filterOf query)))
               (documents db))
      <-> stored db b /\ selects query b) as Hdata.
    { intros b. rewrite merge_sort_Permutation, list_elem_of_In, filter_In.
      rewrite <- list_elem_of_In, elem_of_documents, matches_selects. done. }
    split; [reflexivity|]. split; [reflexivity|]. split; [exact Hdata|].
    split; [|split; [|split; [|reflexivity]]].
    + rewrite merge_sort_Permutation.
      apply NoDup_ListNoDup, List.NoDup_filter, NoDup_ListNoDup,
        NoDup_documents.
    + apply StronglySorted_descending, StronglySorted_merge_sort; apply _.
    + intros Hnone.
      destruct (merge_sort newestFirst _) as [|b rest] eqn:Hsort; [done|].
      exfalso. destruct (proj1 (Hdata b)) as [Hb Hsel].
      { apply list_elem_of_here. }
      by apply (Hnone b).
  - intros found data. destruct found as [blogs|error]; simpl.
    + split; [intros Heq; injection Heq as _ Heq; by rewrite Heq|].
      by intros [= ->].
    + split; discriminate.
  - reflexivity.
Qed.

Lemma getBlogs_lists_matching_witness :
  (getBlogs {| Query.status := Some "archived"; Query.category := None |}
     Sample.blogs).1
  = Sent {| statusCode := 200; json := ListBody 0 [] |}.
Proof.
  destruct (proj1 (getBlogs_lists_matching
                     {| Query.status := Some "archived";
                        Query.category := None |} Sample.blogs))
    as (data & Hres & _ & _ & _ & _ & Hnone & _).
  rewrite Hres, Hnone; [reflexivity|].
  intros b Hb [Hs _].
  specialize (Hs "archived" eq_refl). unfold stored in Hb. simpl in Hb.
  rewrite !lookup_insert in Hb.
  repeat case_decide; try (rewrite lookup_empty in Hb; discriminate Hb);
    injection Hb as Hb; rewrite <- Hb in Hs; simpl in Hs;
    (assert ("archived" <> "") as Hne by discriminate);
    specialize (Hs Hne); discriminate Hs.
Defined.

(** [GET /api/blogs?status=draft] and [GET /api/blogs] on the sample
    collection: the ids in the order of the answer. *)
Example getBlogs_drafts :
  match (getBlogs {| Query.status := Some "draft"; Query.category := None |}
           Sample.blogs).1 with
  | Sent {| statusCode := 200; json := ListBody 2 data |} => _id <$> data
  | _ => []
  end = [Sample.id3; Sample.id1].
Proof. reflexivity. Qed.

Example getBlogs_all :
  match (getBlogs {| Query.status := None; Query.category := Some "" |}
           Sample.blogs).1 with
  | Sent {| statusCode := 200; json := ListBody 3 data |} => _id <$> data
  | _ => []
  end = [Sample.id2; Sample.id3; Sample.id1].
Proof. reflexivity. Qed.

(** [GET /api/blogs?category=%20news%20]: the filter is trimmed as the
    stored categories are, and the two news documents are listed. *)
Example getBlogs_category_with_spaces :
  match (getBlogs {| Query.status := None; Query.category := Some " news " |}
           Sample.blogs).1 with
  | Sent {| statusCode := 200; json := ListBody 2 data |} => _id <$> data
  | _ => []
  end = [Sample.id3; Sample.id1].
Proof. reflexivity. Qed.

End ListSpec.

(** ** Contact form *)

Module ContactSpec.
Import Http Contact Notions.

Lemma contact_presence_test body :
  negb (Js.truthy (name body)) || negb (Js.truthy (email body)) ||
  negb (Js.truthy (message body)) = false
  <-> provided (name body) /\ provided (email body) /\ provided (message body).
Proof.
  unfold provided.
  destruct (Js.truthy (name body)), (Js.truthy (email body)),
    (Js.truthy (message body)); simpl; intuition congruence.
Qed.

(** The handler once the three required fields are there. *)
Lemma submit_provided env nodemailer body :
  provided (name body) -> provided (email body) -> provided (message body) ->
  submitContactForm env nodemailer body =
    let user :=
      match nodemailer (gmail env) (userMailOptions env body) with
      | None => [ConsoleLog "User confirmation email sent successfully"]
      | Some userEmailError =>
          [ConsoleError "Error sending user confirmation email:"]
      end in
    let before :=
      ([CreateTransport (gmail env)] ++ sendMail (userMailOptions env body) ++
       user ++ sendMail (adminMailOptions env body))%list in
    match nodemailer (gmail env) (adminMailOptions env body) with
    | None =>
        (Sent Success,
         (before ++
          [ConsoleLog "Admin notification email sent successfully"])%list)
    | Some adminEmailError =>
        (Next adminEmailError,
         (before ++
          [ConsoleError "Error sending admin notification email:";
           ConsoleError "Email sending error:"])%list)
    end.
Proof.
  intros Hn He Hm. unfold submitContactForm.
  by rewrite (proj2 (contact_presence_test body) (conj Hn (conj He Hm))).
Qed.

Lemma submit_missing env nodemailer body :
  ~ (provided (name body) /\ provided (email body) /\ provided (message body)) ->
  submitContactForm env nodemailer body = (Sent MissingFields, []).
Proof.
  intros Hn. unfold submitContactForm.
  destruct (negb (Js.truthy (name body)) || negb (Js.truthy (email body)) ||
            negb (Js.truthy (message body))) eqn:Ht; [done|].
  by apply contact_presence_test in Ht.
Qed.

(** C1.  For a submission with name, email and message provided, whatever
    the mail relay does:
    - the client receives a success envelope exactly when the send of the
      admin notification succeeds, be the send of the user confirmation a
      success or a failure;
    - when the admin send succeeds the handler answers 200 itself;
    - when it fails the handler forwards the error with [next], and the
      error middleware answers 500 with [success: false];
    - a failed user send is logged and the admin send is still made. *)
Theorem contact_success_iff_admin_sent env nodemailer body production :
  provided (name body) -> provided (email body) -> provided (message body) ->
  let transporter := nodemailer (gmail env) in
  let run := submitContactForm env nodemailer body in
  let response := respond production run.1 in
  (success (json response) = true
     <-> transporter (adminMailOptions env body) = None) /\
  (transporter (adminMailOptions env body) = None -> run.1 = Sent Success) /\
  (forall error, transporter (adminMailOptions env body) = Some error ->
     run.1 = Next error /\
     response = errorHandler production error 200 /\
     statusCode response = 500 /\
     success (json response) = false) /\
  (forall error, transporter (userMailOptions env body) = Some error ->
     In (ConsoleError "Error sending user confirmation email:") run.2 /\
     In (SendMail (adminMailOptions env body)) run.2).
Proof.
  intros Hn He Hm. simpl. rewrite submit_provided by done. simpl.
  destruct (nodemailer (gmail env) (adminMailOptions env body))
    as [adminEmailError|] eqn:Hadmin; simpl.
  - split; [split; discriminate|]. split; [discriminate|]. split.
    + intros error [= <-]. done.
    + intros error ->. rewrite !in_app_iff. simpl. split; tauto.
  - split; [done|]. split; [done|]. split; [discriminate|].
    intros error ->. rewrite !in_app_iff. simpl. split; tauto.
Qed.

Lemma contact_success_iff_admin_sent_witness :
  (submitContactForm Sample.env Sample.userRejected Sample.ann).1
    = Sent Success /\
  statusCode
    (respond true
       (submitContactForm Sample.env Sample.adminRejected Sample.ann).1)
    = 500.
Proof.
  split.
  - apply (contact_success_iff_admin_sent
             Sample.env Sample.userRejected Sample.ann true);
      reflexivity.
  - apply (proj1 (proj2 (proj2 (contact_success_iff_admin_sent
             Sample.env Sample.adminRejected Sample.ann true
             eq_refl eq_refl eq_refl))) Sample.relayDown).
    reflexivity.
Defined.



(** The three ways a submission ends, on the sample request: all
    messages taken, the confirmation refused, the notification refused. *)
Example contact_sessions_each_way :
  (submitContactForm Sample.env Sample.relayUp Sample.ann).2 =
    [CreateTransport (gmail Sample.env);
     SendMail (userMailOptions Sample.env Sample.ann);
     OpenConnection; CloseConnection;
     ConsoleLog "User confirmation email sent successfully";
     SendMail (adminMailOptions Sample.env Sample.ann);
     OpenConnection; CloseConnection;
     ConsoleLog "Admin notification email sent successfully"] /\
  released (submitContactForm Sample.env Sample.userRejected Sample.ann).2
    = true /\
  released (submitContactForm Sample.env Sample.adminRejected Sample.ann).2
    = true /\
  (submitContactForm Sample.env Sample.adminRejected Sample.ann).1
    = Next Sample.relayDown.
Proof. repeat split. Qed.

End ContactSpec.

(** ** Startup: connection retries and the port probe *)

Module StartupSpec.
Import Startup.

Lemma tryPort_free listen port :
  listen port = Listening ->
  tryPort listen port = ([Listen port], Running port).
Proof. intros Hl. simp tryPort. by rewrite Hl. Qed.

Lemma tryPort_in_use_next listen port :
  listen port = ListenError (Some "EADDRINUSE") -> port < 65535 ->
  tryPort listen port =
    (Listen port :: (tryPort listen (port + 1)).1,
     (tryPort listen (port + 1)).2).
Proof.
  intros Hl Hp. rewrite (tryPort_equation_1 listen port), Hl. simpl.
  destruct (Z_lt_dec port 65535); [reflexivity|lia].
Qed.

Lemma tryPort_in_use_last listen port :
  listen port = ListenError (Some "EADDRINUSE") -> 65535 <= port ->
  tryPort listen port = ([Listen port; Exit 1], Exited 1).
Proof.
  intros Hl Hp. rewrite (tryPort_equation_1 listen port), Hl. simpl.
  destruct (Z_lt_dec port 65535); [lia|reflexivity].
Qed.

Lemma tryPort_other_error listen port code :
  listen port = ListenError code -> code <> Some "EADDRINUSE" ->
  tryPort listen port = ([Listen port; Exit 1], Exited 1).
Proof.
  intros Hl Hc. rewrite (tryPort_equation_1 listen port), Hl. simpl.
  by rewrite (proj2 (JsFacts.strict_eq_false code "EADDRINUSE") Hc).
Qed.

(** Every probe starts with an attempt on the port it is given. *)
Lemma tryPort_first_attempt listen port :
  exists later, (tryPort listen port).1 = Listen port :: later.
Proof.
  destruct (listen port) as [|code] eqn:Hl.
  - rewrite tryPort_free by done. by eexists.
  - destruct (decide (code = Some "EADDRINUSE")) as [->|Hc].
    + destruct (Z_lt_dec port 65535).
      * rewrite tryPort_in_use_next by done. by eexists.
      * rewrite tryPort_in_use_last by (done || lia). by eexists.
    + rewrite (tryPort_other_error _ _ code) by done. by eexists.
Qed.

(** C8.  The port probe.
    - When the bind of a candidate fails with EADDRINUSE and the candidate
      is below 65535, the probe goes on with the candidate plus one, and
      that is the very next port it tries.
    - When the bind fails with EADDRINUSE at 65535 (or above), or with any
      other error code at any port, the process exits with code 1, which
      is not zero, and no further port is tried. *)
Theorem tryPort_increments_until_65535 listen port :
  (listen port = ListenError (Some "EADDRINUSE") -> port < 65535 ->
     exists later,
       (tryPort listen (port + 1)).1 = Listen (port + 1) :: later /\
       tryPort listen port =
         (Listen port :: Listen (port + 1) :: later,
          (tryPort listen (port + 1)).2)) /\
  (listen port = ListenError (Some "EADDRINUSE") -> 65535 <= port ->
     tryPort listen port = ([Listen port; Exit 1], Exited 1)) /\
  (forall code, listen port = ListenError code -> code <> Some "EADDRINUSE" ->
     tryPort listen port = ([Listen port; Exit 1], Exited 1)) /\
  (1 <> 0).
Proof.
  split; [|split; [|split]].
  - intros Hl Hp. destruct (tryPort_first_attempt listen (port + 1))
      as (later & Hnext).
    exists later. split; [done|].
    rewrite tryPort_in_use_next by done. by rewrite Hnext.
  - apply tryPort_in_use_last.
  - apply tryPort_other_error.
  - lia.
Qed.

Lemma tryPort_increments_until_65535_witness :
  (exists later,
     (tryPort Sample.busyBelow8002 8001).1 = Listen 8001 :: later /\
     tryPort Sample.busyBelow8002 8000 =
       (Listen 8000 :: Listen 8001 :: later,
        (tryPort Sample.busyBelow8002 8001).2)) /\
  tryPort Sample.allBusy 65535 = ([Listen 65535; Exit 1], Exited 1) /\
  tryPort Sample.denied 8000 = ([Listen 8000; Exit 1], Exited 1).
Proof.
  split; [|split].
  - apply (tryPort_increments_until_65535 Sample.busyBelow8002 8000);
      [reflexivity|lia].
  - apply (tryPort_increments_until_65535 Sample.allBusy 65535);
      [reflexivity|lia].
  - apply (proj1 (proj2 (proj2
             (tryPort_increments_until_65535 Sample.denied 8000)))
             (Some "EACCES"));
      [reflexivity|discriminate].
Defined.

(** *** Retries *)

Lemma bindAttempted_app p es :
  bindAttempted
    {| emailServerStatus := emailServerStatus p; dbStatus := dbStatus p;
       timers := timers p; server := server p;
       events := (events p ++ es)%list |}
  = bindAttempted p ||
    existsb (fun e => match e with Listen _ => true | _ => false end) es.
Proof. unfold bindAttempted. simpl. apply existsb_app. Qed.

(** A connection attempt binds nothing and leaves the server as it is. *)
Lemma ConnectDB_no_bind ok p :
  bindAttempted (ConnectDB ok p).2 = bindAttempted p /\
  server (ConnectDB ok p).2 = server p.
Proof.
  unfold ConnectDB, emit, bindAttempted.
  destruct ok; simpl; rewrite ?existsb_app; simpl;
    rewrite ?orb_false_r; done.
Qed.

Lemma ConnectDB_returns ok p : (ConnectDB ok p).1 = ok.
Proof. by destruct ok. Qed.

(** The retries bind nothing either: no timer callback calls [tryPort]. *)
Lemma runTimers_no_bind outcomes p :
  bindAttempted (runTimers outcomes p) = bindAttempted p /\
  server (runTimers outcomes p) = server p.
Proof.
  revert p. induction outcomes as [|ok later IH]; intros p; simpl; [done|].
  destruct (exited p); [done|].
  destruct (timers p) as [|t pending]; [done|].
  destruct (IH (ConnectDB ok
    {| emailServerStatus := emailServerStatus p; dbStatus := dbStatus p;
       timers := pending; server := server p; events := events p |}).2)
    as [Hb Hsv].
  rewrite Hb, Hsv.
  by rewrite (proj1 (ConnectDB_no_bind _ _)), (proj2 (ConnectDB_no_bind _ _)).
Qed.

Lemma runTimers_no_timers outcomes p :
  timers p = [] -> runTimers outcomes p = p.
Proof.
  intros Ht. destruct outcomes as [|ok later]; simpl; [done|].
  destruct (exited p); [done|]. by rewrite Ht.
Qed.

Lemma connected_app p es :
  connected
    {| emailServerStatus := emailServerStatus p; dbStatus := dbStatus p;
       timers := timers p; server := server p;
       events := (events p ++ es)%list |}
  = connected p ||
    existsb (fun e => match e with Connect true => true | _ => false end) es.
Proof. unfold connected. simpl. apply existsb_app. Qed.

(** With one retry pending, the retries go on at the fixed delay until an
    attempt succeeds; that attempt sets [dbStatus] and schedules nothing. *)
Lemma runTimers_until_success n rest p t :
  exited p = false -> timers p = [t] ->
  let q := runTimers (replicate n false ++ true :: rest) p in
  dbStatus q = true /\ connected q = true /\ timers q = [] /\
  events q =
    (events p ++
     List.concat (replicate n [Connect false; SetTimeout 5000]) ++
     [Connect true])%list.
Proof.
  revert p t. induction n as [|n IH]; intros p t Hex Ht; simpl.
  - rewrite Hex, Ht. simpl. rewrite runTimers_no_timers by done. simpl.
    unfold connected. simpl. rewrite existsb_app. simpl.
    by rewrite orb_true_r.
  - rewrite Hex, Ht. simpl.
    match goal with |- context [runTimers _ ?p'] =>
      destruct (IH p' 5000) as (Hdb & Hc & Htm & Hev); [done|done|]
    end.
    rewrite Hdb, Hc, Htm, Hev. simpl.
    by rewrite <- !(assoc_L app).
Qed.

(** What does hold of the claim: the port is bound when the first
    connection attempt succeeds, and only then. *)
Lemma startServer_connected_at_once_binds v later l port :
  bindAttempted
    (startServer {| verify := v; connects := true :: later; listen := l;
                    parsedPort := port |}) = true.
Proof.
  unfold startServer. simpl.
  rewrite (proj1 (runTimers_no_bind _ _)).
  unfold bindAttempted. simpl.
  destruct (tryPort_first_attempt l
              (initialPort {| verify := v; connects := true :: later;
                              listen := l; parsedPort := port |}))
    as (more & ->).
  reflexivity.
Qed.

Lemma startServer_first_failure_never_binds v later l port :
  let p := startServer {| verify := v; connects := false :: later;
                          listen := l; parsedPort := port |} in
  bindAttempted p = false /\ server p = NotListening.
Proof.
  unfold startServer. simpl.
  by rewrite (proj1 (runTimers_no_bind _ _)), (proj2 (runTimers_no_bind _ _)).
Qed.

Lemma startServer_bind_needs_first_connect w :
  bindAttempted (startServer w) = true ->
  exists later, connects w = true :: later.
Proof.
  destruct w as [v [|[|] later] l port]; intros Hb.
  - discriminate Hb.
  - by eexists.
  - by rewrite (proj1 (startServer_first_failure_never_binds v later l port))
      in Hb.
Qed.

(** C2 does not hold of the code.  When the first connection attempt
    fails, the retries go on every 5000 ms until one succeeds, but nothing
    binds the port then: in every run in which the store connects at a
    retry (after [n] further failures, for any [n]) the process ends with
    [dbStatus] true, a successful connect among its events, the line that
    announces the delayed start logged, and no bind ever attempted. *)
Theorem startServer_retry_success_never_binds v n rest l port :
  let p := startServer
             {| verify := v;
                connects := false :: (replicate n false ++ true :: rest)%list;
                listen := l; parsedPort := port |} in
  connected p = true /\ dbStatus p = true /\
  bindAttempted p = false /\ server p = NotListening /\
  In Delayed (events p).
Proof.
  split; [|split; [|split; [|split]]].
  1,2,5: unfold startServer; simpl;
    match goal with |- context [runTimers _ ?p'] =>
      destruct (runTimers_until_success n rest p' 5000)
        as (Hdb & Hc & Htm & Hev); [done|done|]
    end; try done.
  - rewrite Hev. simpl. tauto.
  - apply (startServer_first_failure_never_binds v _ l port).
  - apply (startServer_first_failure_never_binds v _ l port).
Qed.

(** The run of [Sample.lateStore]: the store is down at startup and up at
    the first retry, every port is free. *)
Example startServer_lateStore :
  startServer Sample.lateStore =
    {| emailServerStatus := true; dbStatus := true; timers := [];
       server := NotListening;
       events := [Verify true; Connect false; SetTimeout 5000; Delayed;
                  Connect true] |}.
Proof. reflexivity. Qed.

End StartupSpec.

(** * Further properties *)

(** ** The port probe *)

Module ProbeSpec.
Import Startup StartupSpec Schema.

(** X1.  The probe is linear and stops at the first free port: when the
    [k] ports from [port] on are in use, the next one is free and it is at
    most 65535, [tryPort] tries exactly [port], [port + 1], ...,
    [port + k] in this order and the server ends up listening on
    [port + k]; the process does not exit. *)
Theorem tryPort_finds_first_free listen (k : nat) port :
  (forall i : nat, (i < k)%nat -> listen (port + Z.of_nat i) = inUse) ->
  listen (port + Z.of_nat k) = Listening ->
  port + Z.of_nat k <= 65535 ->
  tryPort listen port =
    (Listen <$> seqZ port (Z.of_nat k + 1), Running (port + Z.of_nat k)).
Proof.
  revert port. induction k as [|k IH]; intros port Hbusy Hfree Hmax.
  - rewrite Z.add_0_r in *. by rewrite tryPort_free.
  - assert (listen port = inUse) as Hhere.
    { rewrite <- (Z.add_0_r port) at 1. apply (Hbusy 0%nat). lia. }
    rewrite tryPort_in_use_next; [|exact Hhere|lia].
    rewrite (IH (port + 1)).
    + assert (seqZ port (Z.of_nat (S k) + 1)
              = port :: seqZ (port + 1) (Z.of_nat k + 1)) as ->.
      { rewrite seqZ_cons by lia. f_equal. f_equal; lia. }
      assert (port + 1 + Z.of_nat k = port + Z.of_nat (S k)) as -> by lia.
      reflexivity.
    + intros i Hi. replace (port + 1 + Z.of_nat i) with (port + Z.of_nat (S i))
        by lia. apply Hbusy. lia.
    + by replace (port + 1 + Z.of_nat k) with (port + Z.of_nat (S k)) by lia.
    + lia.
Qed.

Lemma tryPort_finds_first_free_witness :
  tryPort Sample.busyBelow8002 8000 =
    ([Listen 8000; Listen 8001; Listen 8002], Running 8002).
Proof.
  apply (tryPort_finds_first_free Sample.busyBelow8002 2 8000).
  - intros [|[|i]] Hi; [reflexivity|reflexivity|lia].
  - reflexivity.
  - lia.
Defined.

(** X2.  When every port from [port] to 65535 is in use, the probe tries
    each of them once, in increasing order, and then the process exits
    with code 1; it never wraps around and never tries a port above
    65535. *)
Theorem tryPort_exhausts_range listen port :
  port <= 65535 ->
  (forall q, port <= q <= 65535 -> listen q = inUse) ->
  tryPort listen port =
    ((Listen <$> seqZ port (65536 - port)) ++ [Exit 1], Exited 1)%list.
Proof.
  intros Hport.
  remember (Z.to_nat (65535 - port)) as n eqn:Hn.
  revert port Hport Hn. induction n as [|n IH]; intros port Hport Hn Hbusy.
  - assert (port = 65535) as -> by lia.
    rewrite tryPort_in_use_last; [done|apply Hbusy; lia|lia].
  - rewrite tryPort_in_use_next; [|apply Hbusy; lia|lia].
    rewrite (IH (port + 1)); [|lia|lia|intros q Hq; apply Hbusy; lia].
    assert (seqZ port (65536 - port)
            = port :: seqZ (port + 1) (65536 - (port + 1))) as ->.
    { rewrite seqZ_cons by lia. f_equal. f_equal; lia. }
    reflexivity.
Qed.

Lemma tryPort_exhausts_range_witness :
  tryPort Sample.allBusy 65533 =
    ([Listen 65533; Listen 65534; Listen 65535; Exit 1], Exited 1).
Proof.
  apply (tryPort_exhausts_range Sample.allBusy 65533); [lia|].
  intros q Hq. reflexivity.
Defined.

(** The probe by induction on the distance to 65535. *)
Lemma tryPort_ind_port (P : Z -> Prop) :
  (forall port, (port < 65535 -> P (port + 1)) -> P port) ->
  forall port, P port.
Proof.
  intros Hstep port.
  remember (Z.to_nat (65535 - port)) as n eqn:Hn.
  revert port Hn. induction n as [|n IH]; intros port Hn.
  - apply Hstep. lia.
  - apply Hstep. intros Hlt. apply IH. lia.
Qed.

(** X3.  For a starting port that is a port number (1 to 65535, the
    ports for which [app.listen] raises no range error), whatever the
    ports answer, the probe ends in one of two ways: the server listens on
    a port that was free, at or above the port the probe started from, or
    the process has exited with code 1.  It never returns with the server
    neither listening nor exited, every port it tries lies between the
    starting port and 65535, and the [Exit] event is there exactly when
    the process has exited. *)
Theorem tryPort_outcome listen port :
  0 < port <= 65535 ->
  let run := tryPort listen port in
  ((exists q, run.2 = Running q /\ listen q = Listening /\
              port <= q <= 65535 /\ ~ In (Exit 1) run.1) \/
   (run.2 = Exited 1 /\ In (Exit 1) run.1)) /\
  (forall q, In q (portsTried run.1) -> port <= q <= 65535).
Proof.
  revert port. apply (tryPort_ind_port (fun port => 0 < port <= 65535 -> _)).
  intros port IH Hport. simpl.
  destruct (listen port) as [|code] eqn:Hl.
  { rewrite tryPort_free by done. simpl. split.
    - left. exists port. repeat split; [done|lia|lia|].
      intros [H|[]]; discriminate H.
    - intros q [<-|[]]. lia. }
  destruct (decide (code = Some "EADDRINUSE")) as [->|Hc].
  2:{ rewrite (tryPort_other_error _ _ code) by done. simpl. split.
      - right. tauto.
      - intros q [<-|[]]. lia. }
  destruct (Z_lt_dec port 65535) as [Hlt|Hge].
  2:{ rewrite tryPort_in_use_last by (done || lia). simpl. split.
      - right. tauto.
      - intros q [<-|[]]. lia. }
  rewrite tryPort_in_use_next by done. simpl.
  destruct (IH Hlt) as [Hout Hports]; [lia|]. split.
  - destruct Hout as [(q & Hq & Hfree & Hle & Hno)|[Hex Hin]].
    + left. exists q. repeat split; [done|done|lia|lia|].
      intros [H|H]; [discriminate H|done].
    + right. split; [done|]. by right.
  - intros q [<-|Hq]; [lia|]. apply Hports in Hq. lia.
Qed.

Lemma tryPort_outcome_witness :
  ((exists q, (tryPort Sample.busyBelow8002 8000).2 = Running q /\
              Sample.busyBelow8002 q = Listening /\ 8000 <= q <= 65535 /\
              ~ In (Exit 1) (tryPort Sample.busyBelow8002 8000).1) \/
   ((tryPort Sample.busyBelow8002 8000).2 = Exited 1 /\
    In (Exit 1) (tryPort Sample.busyBelow8002 8000).1)) /\
  (forall q, In q (portsTried (tryPort Sample.busyBelow8002 8000).1) ->
             8000 <= q <= 65535).
Proof. apply (tryPort_outcome Sample.busyBelow8002 8000). lia. Defined.

End ProbeSpec.

(** ** Startup: flags, retries and driver events *)

Module SequencerSpec.
Import Startup StartupSpec ProbeSpec Schema Driver.

Lemma ConnectDB_rebased ok email pre p :
  (ConnectDB ok (rebased email pre p)).2 = rebased email pre (ConnectDB ok p).2.
Proof.
  unfold ConnectDB, emit, rebased. destruct ok; simpl; f_equal;
    by rewrite <- ?app_assoc.
Qed.

Lemma runTimers_rebased outcomes email pre p :
  runTimers outcomes (rebased email pre p)
  = rebased email pre (runTimers outcomes p).
Proof.
  revert p. induction outcomes as [|ok later IH]; intros p; [done|].
  simpl. unfold exited. simpl. destruct (server p) eqn:Hs; try done;
    destruct (timers p) as [|t pending] eqn:Ht; try done;
    by rewrite <- IH, <- ConnectDB_rebased.
Qed.

(** The startup sequence from the first connection attempt on, the mail
    check left out. *)
Lemma startServer_rebased cs l port :
  exists q, forall v,
    startServer {| verify := v; connects := cs; listen := l;
                   parsedPort := port |}
    = rebased v [Verify v] q.
Proof.
  destruct cs as [|ok later].
  { exists boot. intros v. reflexivity. }
  destruct ok.
  - pose (probe := tryPort l (initialPort
      {| verify := false; connects := []; listen := l; parsedPort := port |})).
    exists (runTimers later
      {| emailServerStatus := false; dbStatus := true; timers := [];
         server := probe.2; events := (Connect true :: probe.1)%list |}).
    intros v. unfold startServer. simpl. rewrite <- runTimers_rebased.
    reflexivity.
  - exists (runTimers later
      {| emailServerStatus := false; dbStatus := false; timers := [5000];
         server := NotListening;
         events := [Connect false; SetTimeout 5000; Delayed] |}).
    intros v. unfold startServer. simpl. rewrite <- runTimers_rebased.
    reflexivity.
Qed.

(** X4.  The mail relay is a soft prerequisite.  [emailServerStatus] ends
    as the outcome of the check, and that outcome changes nothing else of
    the startup: the server state, [dbStatus], the pending timers and all
    events after the first are the same whether the check succeeds or
    fails. *)
Theorem startServer_mail_check_is_soft v v' cs l port :
  let p := startServer {| verify := v; connects := cs; listen := l;
                          parsedPort := port |} in
  let p' := startServer {| verify := v'; connects := cs; listen := l;
                           parsedPort := port |} in
  emailServerStatus p = v /\
  server p = server p' /\ dbStatus p = dbStatus p' /\ timers p = timers p' /\
  exists later, events p = Verify v :: later /\ events p' = Verify v' :: later.
Proof.
  simpl. destruct (startServer_rebased cs l port) as (q & Hq).
  rewrite (Hq v), (Hq v'). simpl. repeat split. by eexists.
Qed.

(** *** Driver events *)

Lemma step_no_bind t p :
  bindAttempted (step t p) = bindAttempted p /\ server (step t p) = server p.
Proof.
  unfold step. destruct (exited p); [done|].
  destruct t as [ok| |ok|]; simpl; try done.
  - destruct (timers p) as [|t pending]; [done|].
    match goal with |- context [ConnectDB ok ?q] =>
      destruct (ConnectDB_no_bind ok q) as [Hb Hs]
    end.
    by rewrite Hb, Hs.
  - unfold onDisconnected.
    by rewrite (proj1 (ConnectDB_no_bind _ _)), (proj2 (ConnectDB_no_bind _ _)).
Qed.

Lemma run_no_bind ticks p :
  bindAttempted (run ticks p) = bindAttempted p /\ server (run ticks p) = server p.
Proof.
  revert p. induction ticks as [|t ticks IH]; intros p; [done|].
  change (run (t :: ticks) p) with (run ticks (step t p)).
  destruct (IH (step t p)) as [-> ->]. apply step_no_bind.
Qed.

Lemma run_cons t ticks p : run (t :: ticks) p = run ticks (step t p).
Proof. reflexivity. Qed.

Lemma run_timer_ticks_idle outcomes p :
  exited p = true \/ timers p = [] ->
  run (TimerFires <$> outcomes) p = p.
Proof.
  intros Hidle. induction outcomes as [|ok later IH]; [done|].
  rewrite fmap_cons, run_cons.
  assert (step (TimerFires ok) p = p) as ->; [|exact IH].
  unfold step. destruct (exited p); [done|].
  destruct Hidle as [Hex|Ht]; [done|]. by rewrite Ht.
Qed.

Lemma run_timer_ticks outcomes p :
  run (TimerFires <$> outcomes) p = runTimers outcomes p.
Proof.
  revert p. induction outcomes as [|ok later IH]; intros p; [done|].
  rewrite fmap_cons, run_cons. simpl.
  destruct (exited p) eqn:Hex.
  { assert (step (TimerFires ok) p = p) as -> by (unfold step; by rewrite Hex).
    apply run_timer_ticks_idle. by left. }
  destruct (timers p) as [|t pending] eqn:Ht.
  { assert (step (TimerFires ok) p = p) as ->
      by (unfold step; by rewrite Hex, Ht).
    apply run_timer_ticks_idle. by right. }
  rewrite <- IH. f_equal. unfold step. by rewrite Hex, Ht.
Qed.

(** *** The retries *)

Lemma count_app P es es' : count P (es ++ es') = (count P es + count P es')%nat.
Proof. unfold count. by rewrite List.filter_app, List.length_app. Qed.

Lemma count_quiet P es :
  (forall e, In e es -> P e = false) -> count P es = 0%nat.
Proof.
  intros Hq. unfold count. induction es as [|e es IH]; [done|]. simpl.
  rewrite (Hq e (or_introl eq_refl)). apply IH. intros e' Hin. apply Hq.
  by right.
Qed.

(** The probe makes no connection attempt and schedules nothing. *)
Lemma tryPort_quiet l port e :
  In e (tryPort l port).1 -> isRetry e = false /\ isFailedConnect e = false.
Proof.
  revert port e. apply (tryPort_ind_port
    (fun port => forall e, In e (tryPort l port).1 -> _)).
  intros port IH e.
  destruct (l port) as [|code] eqn:Hl.
  { rewrite tryPort_free by done. by intros [<-|[]]. }
  destruct (decide (code = Some "EADDRINUSE")) as [->|Hc].
  2:{ rewrite (tryPort_other_error _ _ code) by done.
      by intros [<-|[<-|[]]]. }
  destruct (Z_lt_dec port 65535) as [Hlt|Hge].
  2:{ rewrite tryPort_in_use_last by (done || lia). by intros [<-|[<-|[]]]. }
  rewrite tryPort_in_use_next by done. simpl.
  intros [<-|Hin]; [done|]. by apply IH.
Qed.

(** A connection attempt keeps the books, whoever makes it. *)
Lemma ConnectDB_books ok p :
  retryBookkeeping p -> retryBookkeeping (ConnectDB ok p).2.
Proof.
  intros (Hms & Hcount & Hpending & Hlen).
  unfold retryBookkeeping, ConnectDB, emit, count in *. destruct ok; simpl.
  - rewrite !List.filter_app, !List.length_app. simpl.
    repeat split; try done; try lia.
    intros ms Hin. apply in_app_iff in Hin as [Hin|[Hin|[]]]; [auto|done].
  - rewrite !List.filter_app, !List.length_app. simpl. repeat split.
    + intros ms Hin. rewrite !in_app_iff in Hin. simpl in Hin.
      destruct Hin as [[Hin|[Hin|[]]]|[Hin|[]]]; [auto|done|congruence].
    + lia.
    + intros ms Hin. apply in_app_iff in Hin as [Hin|[Hin|[]]]; [auto|done].
    + lia.
Qed.

(** So does a timer that fires and leaves the list of the pending ones. *)
Lemma fired_books p t pending :
  retryBookkeeping p -> timers p = t :: pending ->
  retryBookkeeping
    {| emailServerStatus := emailServerStatus p; dbStatus := dbStatus p;
       timers := pending; server := server p; events := events p |}.
Proof.
  intros (Hms & Hcount & Hpending & Hlen) Ht.
  unfold retryBookkeeping. simpl. rewrite Ht in Hpending, Hlen.
  simpl in Hlen. repeat split; try done.
  - intros ms Hin. apply Hpending. by right.
  - lia.
Qed.

(** Events that are neither failed attempts nor retries keep the books,
    whatever becomes of the flags and of the server. *)
Lemma quiet_books p es email db srv :
  retryBookkeeping p ->
  (forall e, In e es -> isRetry e = false /\ isFailedConnect e = false) ->
  retryBookkeeping
    {| emailServerStatus := email; dbStatus := db;
       timers := timers p; server := srv;
       events := (events p ++ es)%list |}.
Proof.
  intros (Hms & Hcount & Hpending & Hlen) Hq.
  unfold retryBookkeeping. simpl.
  rewrite !count_app, !(count_quiet _ es) by (intros e He; by apply Hq).
  rewrite !Nat.add_0_r. repeat split; try done.
  intros ms Hin. apply in_app_iff in Hin as [Hin|Hin]; [auto|].
  by apply Hq in Hin as [Hr _].
Qed.

Lemma setDbStatus_books status p :
  retryBookkeeping p -> retryBookkeeping (setDbStatus status p).
Proof. done. Qed.

Lemma step_books t p : retryBookkeeping p -> retryBookkeeping (step t p).
Proof.
  intros Hp. unfold step. destruct (exited p); [done|].
  destruct t as [ok| |ok|]; try done.
  - destruct (timers p) as [|t pending] eqn:Ht; [done|].
    by apply ConnectDB_books, (fired_books p t).
  - by apply ConnectDB_books.
Qed.

Lemma run_books ticks p : retryBookkeeping p -> retryBookkeeping (run ticks p).
Proof.
  revert p. induction ticks as [|t ticks IH]; intros p Hp; [done|].
  rewrite run_cons. by apply IH, step_books.
Qed.

Lemma startServer_books w : retryBookkeeping (startServer w).
Proof.
  destruct w as [v cs l port]. unfold startServer. simpl.
  assert (retryBookkeeping
            {| emailServerStatus := v; dbStatus := false; timers := [];
               server := NotListening; events := [Verify v] |}) as Hboot.
  { unfold retryBookkeeping, count. simpl. repeat split; try done.
    intros ms [Hin|[]]. discriminate Hin. }
  destruct cs as [|ok later]; [exact Hboot|].
  pose proof (ConnectDB_books ok _ Hboot) as Hfirst.
  destruct ok; simpl in *; rewrite <- run_timer_ticks; apply run_books.
  - set (probe := tryPort l _).
    apply (quiet_books _ probe.1 v true probe.2 Hfirst).
    intros e He. eapply tryPort_quiet. exact He.
  - apply (quiet_books _ [Delayed] v false NotListening Hfirst).
    by intros e [<-|[]].
Qed.

(** X5.  The bookkeeping of the retries.  After [startServer] and any
    sequence of callbacks that follows it (a retry timer fires, the
    driver reports an error, a disconnect with the reconnection attempt
    of its listener, a connection), in any order and number: every retry
    ever scheduled was scheduled exactly 5000 ms ahead; there are as many
    retries scheduled as connection attempts that failed, whether the
    startup, a timer or the [disconnected] listener made the attempt; and
    the timers pending are retries, each 5000 ms. *)
Theorem startServer_retry_bookkeeping w ticks :
  retryBookkeeping (run ticks (startServer w)).
Proof. apply run_books, startServer_books. Qed.

(** A first attempt that fails, the [disconnected] event it raises with
    its own attempt failing too, then the two timers firing, the first
    with success: two retries were scheduled, both 5000 ms ahead. *)
Example startServer_retry_bookkeeping_sample :
  let p := run [Disconnected false; TimerFires true; TimerFires true]
             (startServer {| verify := true; connects := [false];
                             listen := fun _ => Listening;
                             parsedPort := None |}) in
  count isRetry (events p) = 2%nat /\
  count isFailedConnect (events p) = 2%nat /\
  timers p = [] /\ server p = NotListening.
Proof. repeat split. Qed.

(** X6.  Nothing after [startServer] starts the HTTP server.  No timer
    callback and no listener on the driver's connection events binds a
    port or changes the state of the server, in any order and number; the
    timer ticks are the retries of the startup sequence.  So when the
    first connection attempt has failed, the server is not listening after
    any sequence of retries, errors, disconnects and reconnects. *)
Theorem driver_events_never_bind ticks :
  (forall p, bindAttempted (run ticks p) = bindAttempted p /\
             server (run ticks p) = server p) /\
  (forall outcomes p, run (TimerFires <$> outcomes) p = runTimers outcomes p) /\
  (forall v later l port,
     let p := run ticks (startServer {| verify := v; connects := false :: later;
                                        listen := l; parsedPort := port |}) in
     bindAttempted p = false /\ server p = NotListening).
Proof.
  split; [intros p; apply run_no_bind|]. split; [apply run_timer_ticks|].
  intros v later l port. simpl.
  rewrite (proj1 (run_no_bind _ _)), (proj2 (run_no_bind _ _)).
  apply (startServer_first_failure_never_binds v later l port).
Qed.

(** X7.  No retry is ever cancelled.  Each disconnect whose reconnection
    attempt fails schedules one more retry and leaves the pending ones in
    place, so [n] such disconnects in a row leave [n] more retries
    pending, every one of them 5000 ms ahead. *)
Theorem disconnects_stack_retries (n : nat) p :
  exited p = false ->
  timers (run (replicate n (Disconnected false)) p)
  = (timers p ++ replicate n 5000)%list.
Proof.
  revert p. induction n as [|n IH]; intros p Hex.
  { simpl. by rewrite app_nil_r. }
  change (run (replicate (S n) (Disconnected false)) p)
    with (run (replicate n (Disconnected false))
            (step (Disconnected false) p)).
  assert (step (Disconnected false) p = onDisconnected false p) as ->
    by (unfold step; by rewrite Hex).
  rewrite IH by exact Hex.
  simpl. by rewrite <- (assoc_L app).
Qed.

Lemma disconnects_stack_retries_witness :
  timers (run (replicate 3 (Disconnected false))
            (startServer Sample.lateStore))
  = [5000; 5000; 5000].
Proof.
  apply (disconnects_stack_retries 3 (startServer Sample.lateStore)).
  reflexivity.
Defined.

End SequencerSpec.

(** ** Create: what is stored *)

Module CreatedSpec.
Import Http Store BlogController Notions Schema StoreFacts CreateSpec.

Lemma trim_empty : Js.trim "" = "".
Proof. reflexivity. Qed.

Lemma checkRequired_inr msg more v s :
  checkRequired msg more v = inr s <->
  exists raw, v = Some raw /\ Js.trim raw <> "" /\ more (Js.trim raw) = inr s.
Proof.
  unfold checkRequired. destruct v as [raw|].
  - destruct (String.eqb_spec (Js.trim raw) "") as [He|Hne]; split.
    + discriminate.
    + intros (raw' & [= <-] & Hne & _). done.
    + intros Hm. by exists raw.
    + by intros (raw' & [= <-] & _ & Hm).
  - split; [discriminate|]. by intros (raw & Hraw & _).
Qed.

Lemma checkRequired_inl msg more v m :
  checkRequired msg more v = inl m ->
  (m = msg /\ forall raw, v = Some raw -> Js.trim raw = "") \/
  (exists raw, v = Some raw /\ Js.trim raw <> "" /\
               more (Js.trim raw) = inl m).
Proof.
  unfold checkRequired. destruct v as [raw|].
  - destruct (String.eqb_spec (Js.trim raw) "") as [He|Hne].
    + intros [= <-]. left. split; [done|]. by intros raw' [= <-].
    + intros Hm. right. by exists raw.
  - intros [= <-]. left. split; [done|]. discriminate.
Qed.

Lemma checkTitle_inr v s :
  checkTitle v = inr s <->
  exists raw, v = Some raw /\ s = Js.trim raw /\ s <> "" /\
              (Js.length s <= 100)%nat.
Proof.
  unfold checkTitle. rewrite checkRequired_inr. split.
  - intros (raw & -> & Hne & Hmore). exists raw.
    destruct (Nat.leb_spec (Js.length (Js.trim raw)) 100);
      [|discriminate Hmore].
    injection Hmore as <-. done.
  - intros (raw & -> & -> & Hne & Hlen). exists raw.
    apply Nat.leb_le in Hlen. by rewrite Hlen.
Qed.

Lemma checkText_inr msg v s :
  checkRequired msg inr v = inr s <->
  exists raw, v = Some raw /\ s = Js.trim raw /\ s <> "".
Proof.
  rewrite checkRequired_inr. split.
  - intros (raw & -> & Hne & [= <-]). by exists raw.
  - intros (raw & -> & -> & Hne). by exists raw.
Qed.

Lemma checkEnum_inr s s' :
  checkEnum s = inr s' <-> s' = s /\ (s = "published" \/ s = "draft").
Proof.
  unfold checkEnum, inEnum, statusEnum. simpl.
  destruct (String.eqb_spec s "published") as [->|Hp]; simpl.
  { split; [intros [= <-]; auto|intros [-> _]; done]. }
  destruct (String.eqb_spec s "draft") as [->|Hd]; simpl.
  { split; [intros [= <-]; auto|intros [-> _]; done]. }
  split; [discriminate|]. intros [_ [?|?]]; done.
Qed.

Lemma newDocument_inr body now f :
  newDocument body now = inr f <->
  checkTitle (Body.title body) = inr (title f) /\
  checkDescription (Body.description body) = inr (description f) /\
  checkCategory (Body.category body) = inr (category f) /\
  checkImageUrl (Body.imageUrl body) = inr (imageUrl f) /\
  checkStatus (Body.status body) = inr (status f) /\
  createdAt f = now /\ updatedAt f = now.
Proof.
  unfold newDocument.
  destruct (checkTitle (Body.title body)) as [mt|t],
    (checkDescription (Body.description body)) as [md|d],
    (checkCategory (Body.category body)) as [mc|c],
    (checkImageUrl (Body.imageUrl body)) as [mi|i],
    (checkStatus (Body.status body)) as [ms|s];
    (split; [try discriminate|try (by intros (?&?&?&?&?&?&?))]).
  - intros [= <-]. done.
  - intros (Ht & Hd & Hc & Hi & Hs & Hca & Hua).
    destruct f; simpl in *; congruence.
Qed.

(** Validation failed: there is a message, and each message is the one of
    its path. *)
Lemma newDocument_inl body now errs :
  newDocument body now = inl errs ->
  errs <> [] /\
  errs = (pathError "title" (checkTitle (Body.title body)) ++
          pathError "description" (checkDescription (Body.description body)) ++
          pathError "category" (checkCategory (Body.category body)) ++
          pathError "imageUrl" (checkImageUrl (Body.imageUrl body)) ++
          pathError "status" (checkStatus (Body.status body)))%list.
Proof.
  unfold newDocument.
  destruct (checkTitle (Body.title body)) as [mt|t],
    (checkDescription (Body.description body)) as [md|d],
    (checkCategory (Body.category body)) as [mc|c],
    (checkImageUrl (Body.imageUrl body)) as [mi|i],
    (checkStatus (Body.status body)) as [ms|s];
    intros [= <-]; done.
Qed.

(** The document [Blog.create] builds from a complete body. *)
Lemma newDocument_complete t d c s i now f :
  newDocument {| Body.title := Some t; Body.description := Some d;
                 Body.category := Some c; Body.status := Some s;
                 Body.imageUrl := Some i |} now = inr f <->
  (Js.trim t <> "" /\ (Js.length (Js.trim t) <= 100)%nat /\
   Js.trim d <> "" /\ Js.trim c <> "" /\ Js.trim i <> "" /\
   (s = "published" \/ s = "draft")) /\
  f = {| title := Js.trim t; description := Js.trim d;
         category := Js.trim c; imageUrl := Js.trim i; status := s;
         createdAt := now; updatedAt := now |}.
Proof.
  rewrite newDocument_inr. cbn [Body.title Body.description Body.category
    Body.status Body.imageUrl checkStatus].
  unfold checkDescription, checkCategory, checkImageUrl.
  rewrite checkTitle_inr, !checkText_inr, checkEnum_inr. split.
  - intros ((? & [= <-] & Ht & Ht1 & Ht2) & (? & [= <-] & Hd & Hd1) &
            (? & [= <-] & Hc & Hc1) & (? & [= <-] & Hi & Hi1) &
            (Hs & Hs1) & Hca & Hua).
    split; [by rewrite <- Ht, <- Hd, <- Hc, <- Hi|].
    destruct f; simpl in *; congruence.
  - intros ((Ht & Hl & Hd & Hc & Hi & Hs) & ->). simpl.
    repeat split; try done; by eexists.
Qed.

Lemma provided_complete body :
  Forall provided (required body) ->
  exists t d c s i,
    body = {| Body.title := Some t; Body.description := Some d;
              Body.category := Some c; Body.status := Some s;
              Body.imageUrl := Some i |}.
Proof.
  unfold required. rewrite !Forall_cons.
  intros (Ht & Hd & Hc & Hs & Hi & _).
  apply JsFacts.truthy_inv in Ht as (t & Ht & _), Hd as (d & Hd & _),
    Hc as (c & Hc & _), Hs as (s & Hs & _), Hi as (i & Hi & _).
  exists t, d, c, s, i. destruct body; simpl in *; congruence.
Qed.

Lemma trim_provided raw : Js.trim raw <> "" -> provided (Some raw).
Proof.
  intros Hne. apply JsFacts.truthy_Some_iff. intros ->. by apply Hne.
Qed.

(** X8.  When [createBlog] answers 201, for a body whose fields are each
    a string or missing.  It does so exactly for a body with all five
    fields in which title, description, category and imageUrl are not
    blank after trimming (white space is that of ECMAScript, the no-break
    space and the other Unicode spaces included), the trimmed title is at
    most 100 UTF-16 code units long, status is "published" or "draft", and
    the generated id is not taken.  The document answered and stored is then
    the body with these four fields trimmed, [createdAt] and [updatedAt]
    set to the time of the call, under the generated id; the collection is
    the old one with this one document added. *)
Theorem createBlog_created oid now body db :
  let made t d c s i :=
    {| title := Js.trim t; description := Js.trim d; category := Js.trim c;
       imageUrl := Js.trim i; status := s;
       createdAt := now; updatedAt := now |} in
  let accepted t d c s i :=
    body = {| Body.title := Some t; Body.description := Some d;
              Body.category := Some c; Body.status := Some s;
              Body.imageUrl := Some i |} /\
    Js.trim t <> "" /\ (Js.length (Js.trim t) <= 100)%nat /\
    Js.trim d <> "" /\ Js.trim c <> "" /\ Js.trim i <> "" /\
    (s = "published" \/ s = "draft") /\
    docs db !! oid = None in
  (forall t d c s i, accepted t d c s i ->
     createBlog oid now body db =
       (Sent {| statusCode := 201;
                json := DataBody (Some {| _id := oid;
                                          fields := made t d c s i |}) |},
        {| docs := <[oid := made t d c s i]> (docs db);
           calls := (calls db ++ [Create body])%list |})) /\
  (forall r, (createBlog oid now body db).1 = Sent r -> statusCode r = 201 ->
     exists t d c s i, accepted t d c s i).
Proof.
  simpl. split.
  - intros t d c s i (Hb & Ht & Hl & Hd & Hc & Hi & Hs & Hfree). subst body.
    rewrite createBlog_creates.
    + unfold create.
      rewrite (proj2 (newDocument_complete t d c s i now _)
                 (conj (conj Ht (conj Hl (conj Hd (conj Hc (conj Hi Hs)))))
                    eq_refl)).
      by rewrite Hfree.
    + unfold required. simpl. repeat apply Forall_cons_2;
        try (by apply trim_provided); [|done].
      destruct Hs as [-> | ->]; done.
    + destruct Hs as [-> | ->]; [by left|by right].
  - intros r Hr H201.
    destruct (decide (Forall provided (required body))) as [Hp|Hp].
    2:{ rewrite (createBlog_missing _ _ _ _ Hp) in Hr. simpl in Hr.
        injection Hr as <-. discriminate H201. }
    destruct (decide (statusAllowed (Body.status body))) as [Hs|Hs].
    2:{ rewrite (createBlog_invalid _ _ _ _ Hp Hs) in Hr. simpl in Hr.
        injection Hr as <-. discriminate H201. }
    rewrite (createBlog_creates _ _ _ _ Hp Hs) in Hr.
    destruct (provided_complete body Hp) as (t & d & c & s & i & ->).
    exists t, d, c, s, i. split; [done|].
    unfold create in Hr.
    destruct (newDocument _ now) as [errs|f] eqn:Hdoc.
    { simpl in Hr. injection Hr as <-. discriminate H201. }
    apply newDocument_complete in Hdoc as ((Ht & Hl & Hd & Hc & Hi & Hst) & _).
    destruct (docs db !! oid) eqn:Hfree; [discriminate Hr|].
    done.
Qed.

Lemma createBlog_created_witness :
  createBlog Sample.id1 5
    {| Body.title := Some "  A "; Body.description := Some "B";
       Body.category := Some "C"; Body.status := Some "draft";
       Body.imageUrl := Some " http://x/1.png" |} Sample.empty =
  (Sent {| statusCode := 201;
           json := DataBody (Some
             {| _id := Sample.id1;
                fields := {| title := "A"; description := "B";
                             category := "C"; imageUrl := "http://x/1.png";
                             status := "draft";
                             createdAt := 5; updatedAt := 5 |} |}) |},
   {| docs := <[Sample.id1 :=
                  {| title := "A"; description := "B"; category := "C";
                     imageUrl := "http://x/1.png"; status := "draft";
                     createdAt := 5; updatedAt := 5 |}]> (docs Sample.empty);
      calls := [Create
        {| Body.title := Some "  A "; Body.description := Some "B";
           Body.category := Some "C"; Body.status := Some "draft";
           Body.imageUrl := Some " http://x/1.png" |}] |}).
Proof.
  apply (proj1 (createBlog_created Sample.id1 5 _ Sample.empty)
           "  A " "B" "C" "draft" " http://x/1.png").
  repeat split; try reflexivity; try (vm_compute; discriminate).
  - vm_compute. lia.
  - by right.
Defined.

Lemma checkRequired_blank msg more v :
  blank v -> checkRequired msg more v = inl msg.
Proof.
  intros (raw & -> & Hb). unfold checkRequired. by rewrite Hb.
Qed.

Lemma checkTitle_tooLong v :
  tooLong v -> checkTitle v = inl "Title cannot be more than 100 characters".
Proof.
  intros (raw & -> & Hlen). unfold checkTitle, checkRequired.
  destruct (String.eqb_spec (Js.trim raw) "") as [He|_].
  { rewrite He in Hlen. unfold Js.length in Hlen. simpl in Hlen. lia. }
  destruct (Nat.leb_spec (Js.length (Js.trim raw)) 100); [lia|done].
Qed.

Lemma pathError_In {A} path (r : string + A) msg :
  r = inl msg -> In (path, msg) (pathError path r).
Proof. intros ->. by left. Qed.

(** X9.  What the handler's presence test lets through and the schema
    stops.  A body that passes both checks of [createBlog] but has a
    title, description, category or imageUrl that is only white space (of
    ECMAScript: the no-break space and the other Unicode spaces count), or
    a title longer than 100 UTF-16 code units after trimming, reaches
    [Blog.create] and is rejected there: the answer is 400 with the list
    of the validators' messages, the message of each offending path among
    them, and no document is stored. *)
Theorem createBlog_schema_rejects oid now body db :
  Forall provided (required body) -> statusAllowed (Body.status body) ->
  blank (Body.title body) \/ tooLong (Body.title body) \/
  blank (Body.description body) \/ blank (Body.category body) \/
  blank (Body.imageUrl body) ->
  exists messages,
    createBlog oid now body db =
      (Sent {| statusCode := 400; json := ErrorsBody messages |},
       called (Create body) db) /\
    (blank (Body.title body) -> In "Blog title is required" messages) /\
    (tooLong (Body.title body) ->
       In "Title cannot be more than 100 characters" messages) /\
    (blank (Body.description body) ->
       In "Blog description is required" messages) /\
    (blank (Body.category body) -> In "Blog category is required" messages) /\
    (blank (Body.imageUrl body) -> In "Blog image URL is required" messages).
Proof.
  intros Hp Hs Hbad. rewrite (createBlog_creates _ _ _ _ Hp Hs).
  unfold create.
  destruct (newDocument body now) as [errs|f] eqn:Hdoc.
  - apply newDocument_inl in Hdoc as (_ & Herrs).
    exists (snd <$> errs). split; [reflexivity|].
    assert (forall path msg, In (path, msg) errs -> In msg (snd <$> errs))
      as Hmsg.
    { intros path msg Hin. by apply (in_map snd) in Hin. }
    subst errs.
    repeat split; intros Hb.
    + apply (Hmsg "title"). rewrite !in_app_iff. left.
      by apply pathError_In, checkRequired_blank.
    + apply (Hmsg "title"). rewrite !in_app_iff. left.
      by apply pathError_In, checkTitle_tooLong.
    + apply (Hmsg "description"). rewrite !in_app_iff. right; left.
      by apply pathError_In, checkRequired_blank.
    + apply (Hmsg "category"). rewrite !in_app_iff. right; right; left.
      by apply pathError_In, checkRequired_blank.
    + apply (Hmsg "imageUrl"). rewrite !in_app_iff.
      right; right; right; left.
      by apply pathError_In, checkRequired_blank.
  - exfalso. apply newDocument_inr in Hdoc as (Ht & Hd & Hc & Hi & _).
    destruct Hbad as [Hb|[Hb|[Hb|[Hb|Hb]]]].
    + unfold checkTitle in Ht.
      rewrite (checkRequired_blank _ _ _ Hb) in Ht. discriminate Ht.
    + rewrite (checkTitle_tooLong _ Hb) in Ht. discriminate Ht.
    + unfold checkDescription in Hd.
      rewrite (checkRequired_blank _ _ _ Hb) in Hd. discriminate Hd.
    + unfold checkCategory in Hc.
      rewrite (checkRequired_blank _ _ _ Hb) in Hc. discriminate Hc.
    + unfold checkImageUrl in Hi.
      rewrite (checkRequired_blank _ _ _ Hb) in Hi. discriminate Hi.
Qed.

Lemma createBlog_schema_rejects_witness :
  exists messages,
    createBlog Sample.id1 5
      {| Body.title := Some "   "; Body.description := Some "B";
         Body.category := Some "C"; Body.status := Some "draft";
         Body.imageUrl := Some "u" |} Sample.empty =
      (Sent {| statusCode := 400; json := ErrorsBody messages |},
       called (Create
         {| Body.title := Some "   "; Body.description := Some "B";
            Body.category := Some "C"; Body.status := Some "draft";
            Body.imageUrl := Some "u" |}) Sample.empty) /\
    In "Blog title is required" messages.
Proof.
  destruct (createBlog_schema_rejects Sample.id1 5
    {| Body.title := Some "   "; Body.description := Some "B";
       Body.category := Some "C"; Body.status := Some "draft";
       Body.imageUrl := Some "u" |} Sample.empty)
    as (messages & Hres & Htitle & _).
  - apply presence_test. reflexivity.
  - right. reflexivity.
  - left. exists "   ". split; reflexivity.
  - exists messages. split; [exact Hres|].
    apply Htitle. exists "   ". split; reflexivity.
Defined.

(** A title of 40 characters of three bytes each is 120 bytes and 40
    UTF-16 code units long: it is stored.  One of 101 is rejected. *)
Example createBlog_title_of_wide_characters :
  String.length (Sample.times 40 Sample.zhong) = 120%nat /\
  Js.length (Sample.times 40 Sample.zhong) = 40%nat /\
  (createBlog Sample.id1 5 (Sample.titled (Sample.times 40 Sample.zhong))
     Sample.empty).1
  = Sent {| statusCode := 201;
            json := DataBody (Some
              {| _id := Sample.id1;
                 fields := {| title := Sample.times 40 Sample.zhong;
                              description := "B"; category := "C";
                              imageUrl := "http://x/1.png";
                              status := "draft";
                              createdAt := 5; updatedAt := 5 |} |}) |} /\
  (createBlog Sample.id1 5 (Sample.titled (Sample.times 101 Sample.zhong))
     Sample.empty).1
  = Sent {| statusCode := 400;
            json := ErrorsBody
                      ["Title cannot be more than 100 characters"] |}.
Proof. repeat split; vm_compute; reflexivity. Qed.

(** A title of no-break spaces passes the handler's presence test and is
    blank for the schema; around a word they are trimmed away. *)
Example createBlog_title_of_no_break_spaces :
  Js.trim (Sample.nbsp ++ "A" ++ Sample.nbsp) = "A" /\
  (createBlog Sample.id1 5 (Sample.titled (Sample.nbsp ++ Sample.nbsp))
     Sample.empty).1
  = Sent {| statusCode := 400;
            json := ErrorsBody ["Blog title is required"] |}.
Proof. split; vm_compute; reflexivity. Qed.

End CreatedSpec.

(** ** The collection under the handlers *)

Module CollectionSpec.
Import Http Store BlogController Notions Schema StoreFacts CreateSpec
  CreatedSpec.

(** Every way [createBlog] can end. *)
Lemma createBlog_cases oid now body db :
  createBlog oid now body db = (Sent MissingFields, db) \/
  createBlog oid now body db = (Sent InvalidStatus, db) \/
  (exists errs,
     newDocument body now = inl errs /\
     createBlog oid now body db =
       (Sent (ValidationFailed (ValidationError "Blog validation failed" errs)),
        called (Create body) db)) \/
  (exists f other,
     newDocument body now = inr f /\ docs db !! oid = Some other /\
     createBlog oid now body db =
       (Next (DuplicateKeyError oid), called (Create body) db)) \/
  (exists f,
     newDocument body now = inr f /\ docs db !! oid = None /\
     createBlog oid now body db =
       (Sent {| statusCode := 201;
                json := DataBody (Some {| _id := oid; fields := f |}) |},
        {| docs := <[oid := f]> (docs db);
           calls := (calls db ++ [Create body])%list |})).
Proof.
  destruct (decide (Forall provided (required body))) as [Hp|Hp].
  2:{ left. by apply createBlog_missing. }
  destruct (decide (statusAllowed (Body.status body))) as [Hs|Hs].
  2:{ right; left. by apply createBlog_invalid. }
  right; right. rewrite (createBlog_creates _ _ _ _ Hp Hs). unfold create.
  destruct (newDocument body now) as [errs|f].
  { left. by exists errs. }
  right. destruct (docs db !! oid) as [other|] eqn:Hoid.
  - left. by exists f, other.
  - right. by exists f.
Qed.

Section WithFormat.
Context `{ObjectIdFormat}.

(** Every way [updateBlog] can end. *)
Lemma updateBlog_cases id now body db :
  (castObjectId id = None /\
   updateBlog id now body db = (Sent InvalidIdentifier, called (FindById id) db))
  \/
  (exists oid,
     castObjectId id = Some oid /\ docs db !! oid = None /\
     updateBlog id now body db = (Sent NotFound, called (FindById id) db)) \/
  (exists oid old errs,
     castObjectId id = Some oid /\ docs db !! oid = Some old /\
     castUpdate body = inl errs /\
     updateBlog id now body db =
       (Sent (ValidationFailed (ValidationError "Validation failed" errs)),
        called (FindByIdAndUpdate id body) (called (FindById id) db))) \/
  (exists oid old u,
     castObjectId id = Some oid /\ docs db !! oid = Some old /\
     castUpdate body = inr u /\
     updateBlog id now body db =
       (Sent {| statusCode := 200;
                json := DataBody (Some {| _id := oid;
                                          fields := applyUpdate u now old |}) |},
        {| docs := <[oid := applyUpdate u now old]> (docs db);
           calls := (calls db ++ [FindById id] ++
                     [FindByIdAndUpdate id body])%list |})).
Proof.
  destruct (castObjectId id) as [oid|] eqn:Hid.
  2:{ left. split; [done|]. by apply updateBlog_malformed. }
  destruct (docs db !! oid) as [old|] eqn:Hold.
  2:{ right; left. exists oid. split; [done|]. split; [done|].
      by apply (updateBlog_absent id oid). }
  right; right. rewrite (updateBlog_found id oid _ _ _ old) by done.
  destruct (castUpdate body) as [errs|u] eqn:Hc.
  - left. by exists oid, old, errs.
  - right. by exists oid, old, u.
Qed.

(** Every way [deleteBlog] can end. *)
Lemma deleteBlog_cases id db :
  (castObjectId id = None /\
   deleteBlog id db = (Sent InvalidIdentifier, called (FindById id) db)) \/
  (exists oid,
     castObjectId id = Some oid /\ docs db !! oid = None /\
     deleteBlog id db = (Sent NotFound, called (FindById id) db)) \/
  (exists oid old,
     castObjectId id = Some oid /\ docs db !! oid = Some old /\
     deleteBlog id db =
       (Sent {| statusCode := 200; json := EmptyDataBody |},
        {| docs := delete oid (docs db);
           calls := (calls db ++ [FindById id] ++ [DeleteOne oid])%list |})).
Proof.
  destruct (castObjectId id) as [oid|] eqn:Hid.
  2:{ left. split; [done|]. by apply deleteBlog_malformed. }
  destruct (docs db !! oid) as [old|] eqn:Hold.
  2:{ right; left. exists oid. split; [done|]. split; [done|].
      by apply (deleteBlog_absent id oid). }
  right; right. exists oid, old. split; [done|]. split; [done|].
  by apply (deleteBlog_found id oid _ old).
Qed.

(** X10.  Each mutating handler touches its own document and no other.
    [createBlog] leaves every document other than the generated id as it
    is and never replaces a document that is already stored under that
    id; [updateBlog] and [deleteBlog] leave every document as it is but
    the one stored under the ObjectId that [id] is cast to, and all of
    them when [id] is no ObjectId; [getBlog] and [getBlogs] change no
    document. *)
Theorem handlers_touch_only_their_document oid id now body query db :
  (forall other, other <> oid ->
     docs (createBlog oid now body db).2 !! other = docs db !! other) /\
  (is_Some (docs db !! oid) -> docs (createBlog oid now body db).2 = docs db) /\
  (forall other, castObjectId id <> Some other ->
     docs (updateBlog id now body db).2 !! other = docs db !! other) /\
  (forall other, castObjectId id <> Some other ->
     docs (deleteBlog id db).2 !! other = docs db !! other) /\
  docs (getBlog id db).2 = docs db /\
  docs (getBlogs query db).2 = docs db.
Proof.
  split; [|split; [|split; [|split; [|split]]]].
  - intros other Hne.
    destruct (createBlog_cases oid now body db)
      as [->|[->|[(e & _ & ->)|[(f & o & _ & _ & ->)|(f & _ & _ & ->)]]]];
      simpl; try done.
    by apply lookup_insert_ne.
  - intros [f' Hsome].
    destruct (createBlog_cases oid now body db)
      as [->|[->|[(e & _ & ->)|[(f & o & _ & _ & ->)|(f & _ & Hn & ->)]]]];
      simpl; try done.
    congruence.
  - intros other Hne.
    destruct (updateBlog_cases id now body db)
      as [(_ & ->)|[(k & _ & _ & ->)|[(k & o & e & _ & _ & _ & ->)|
          (k & o & u & Hk & _ & _ & ->)]]]; simpl; try done.
    apply lookup_insert_ne. congruence.
  - intros other Hne.
    destruct (deleteBlog_cases id db)
      as [(_ & ->)|[(k & _ & _ & ->)|(k & o & Hk & _ & ->)]]; simpl; try done.
    apply lookup_delete_ne. congruence.
  - unfold getBlog, findById.
    destruct (castObjectId id) as [k|]; [|done]. by destruct (docs db !! k).
  - reflexivity.
Qed.

End WithFormat.

Lemma handlers_touch_only_their_document_witness :
  docs (@createBlog Sample.id1 5 Sample.draftBody Sample.blogs).2
    = docs Sample.blogs /\
  docs (@deleteBlog Sample.hex24 Sample.ID1 Sample.blogs).2 !! Sample.id2
    = docs Sample.blogs !! Sample.id2.
Proof.
  split.
  - apply (proj1 (proj2
             (@handlers_touch_only_their_document Sample.hex24
                Sample.id1 Sample.ID1 5 Sample.draftBody
                {| Query.status := None; Query.category := None |}
                Sample.blogs))).
    vm_compute. by eexists.
  - apply (proj1 (proj2 (proj2 (proj2
             (@handlers_touch_only_their_document Sample.hex24
                Sample.id1 Sample.ID1 5 Sample.draftBody
                {| Query.status := None; Query.category := None |}
                Sample.blogs))))).
    discriminate.
Defined.

(** *** Update *)

Lemma checkSet_title v o :
  checkSet checkTitle v = inr o <->
  okTitle v /\ o = Js.trim <$> v.
Proof.
  unfold checkSet, okTitle. destruct v as [raw|].
  - destruct (checkTitle (Some raw)) as [m|s] eqn:Hc.
    + split; [discriminate|]. intros [Hok _].
      destruct (Hok raw eq_refl) as [Hne Hlen].
      assert (checkTitle (Some raw) = inr (Js.trim raw)) as Habs
        by (apply checkTitle_inr; by exists raw).
      congruence.
    + apply checkTitle_inr in Hc as (? & [= <-] & -> & Hne & Hlen).
      split; [intros [= <-]; split; [by intros ? [= <-]|done]|].
      by intros [_ ->].
  - split; [intros [= <-]; split; [discriminate|done]|]. by intros [_ ->].
Qed.

Lemma checkSet_text msg v o :
  checkSet (checkRequired msg inr) v = inr o <->
  okText v /\ o = Js.trim <$> v.
Proof.
  unfold checkSet, okText. destruct v as [raw|].
  - destruct (checkRequired msg inr (Some raw)) as [m|s] eqn:Hc.
    + split; [discriminate|]. intros [Hok _].
      assert (checkRequired msg inr (Some raw) = inr (Js.trim raw)) as Habs
        by (apply checkText_inr; exists raw;
            split; [done|split; [done|by apply Hok]]).
      congruence.
    + apply checkText_inr in Hc as (? & [= <-] & -> & Hne).
      split; [intros [= <-]; split; [by intros ? [= <-]|done]|].
      by intros [_ ->].
  - split; [intros [= <-]; split; [discriminate|done]|]. by intros [_ ->].
Qed.

Lemma checkSet_status v o :
  checkSet checkStatus v = inr o <-> okStatus v /\ o = v.
Proof.
  unfold checkSet, okStatus, checkStatus. destruct v as [s|].
  - destruct (checkEnum s) as [m|s'] eqn:Hc.
    + split; [discriminate|]. intros [Hok _].
      assert (checkEnum s = inr s) as Habs
        by (apply checkEnum_inr; split; [done|by apply Hok]).
      congruence.
    + apply checkEnum_inr in Hc as (-> & Hs).
      split; [intros [= <-]; split; [by intros ? [= <-]|done]|].
      by intros [_ ->].
  - split; [intros [= <-]; split; [discriminate|done]|]. by intros [_ ->].
Qed.

Lemma castUpdate_inr body u :
  castUpdate body = inr u <->
  acceptableUpdate body /\
  u = {| Body.title := Js.trim <$> Body.title body;
         Body.description := Js.trim <$> Body.description body;
         Body.category := Js.trim <$> Body.category body;
         Body.status := Body.status body;
         Body.imageUrl := Js.trim <$> Body.imageUrl body |}.
Proof.
  unfold castUpdate, acceptableUpdate.
  destruct (checkSet checkTitle (Body.title body)) as [mt|t] eqn:Ht,
    (checkSet checkDescription (Body.description body)) as [md|d] eqn:Hd,
    (checkSet checkCategory (Body.category body)) as [mc|c] eqn:Hc,
    (checkSet checkImageUrl (Body.imageUrl body)) as [mi|i] eqn:Hi,
    (checkSet checkStatus (Body.status body)) as [ms|st] eqn:Hs;
    unfold checkDescription, checkCategory, checkImageUrl in *;
    (split; [try discriminate|]).
  all: try (intros ((Hot & Hod & Hoc & Hoi & Hos) & _);
            first
              [ pose proof (proj2 (checkSet_title _ _) (conj Hot eq_refl));
                congruence
              | pose proof (proj2 (checkSet_text
                  "Blog description is required" _ _) (conj Hod eq_refl));
                congruence
              | pose proof (proj2 (checkSet_text
                  "Blog category is required" _ _) (conj Hoc eq_refl));
                congruence
              | pose proof (proj2 (checkSet_text
                  "Blog image URL is required" _ _) (conj Hoi eq_refl));
                congruence
              | pose proof (proj2 (checkSet_status _ _) (conj Hos eq_refl));
                congruence ]).
  - apply checkSet_title in Ht as (Hot & ->).
    apply checkSet_text in Hd as (Hod & ->), Hc as (Hoc & ->), Hi as (Hoi & ->).
    apply checkSet_status in Hs as (Hos & ->).
    intros [= <-]. done.
  - apply checkSet_title in Ht as (Hot & ->).
    apply checkSet_text in Hd as (Hod & ->), Hc as (Hoc & ->), Hi as (Hoi & ->).
    apply checkSet_status in Hs as (Hos & ->).
    by intros (_ & ->).
Qed.

Lemma applyUpdate_updated body now old :
  applyUpdate
    {| Body.title := Js.trim <$> Body.title body;
       Body.description := Js.trim <$> Body.description body;
       Body.category := Js.trim <$> Body.category body;
       Body.status := Body.status body;
       Body.imageUrl := Js.trim <$> Body.imageUrl body |} now old
  = updated body now old.
Proof.
  unfold applyUpdate, updated, assign, setTo. simpl.
  by destruct (Body.title body), (Body.description body),
    (Body.category body), (Body.imageUrl body), (Body.status body).
Qed.

Section Updates.
Context `{ObjectIdFormat}.

(** X11.  What [updateBlog] writes, for a body of the five fields, each
    a string or missing.  On an existing document (the one stored
    under the ObjectId the id is cast to) the answer is 200 exactly when
    every field the body sets is acceptable to the schema: title,
    description, category, imageUrl not blank after trimming, the title of
    at most 100 UTF-16 code units, status "published" or "draft".  The
    document is then the old one with the fields of the body set (the four
    text fields trimmed) and the other fields kept; [createdAt] is kept,
    [updatedAt] is the time of the call.  This is the document answered,
    the one stored, and the one a Get of the same id answers next. *)
Theorem updateBlog_sets_given_fields id oid now body db old :
  castObjectId id = Some oid -> docs db !! oid = Some old ->
  (acceptableUpdate body ->
     updateBlog id now body db =
       (Sent {| statusCode := 200;
                json := DataBody (Some {| _id := oid;
                                          fields := updated body now old |}) |},
        {| docs := <[oid := updated body now old]> (docs db);
           calls := (calls db ++ [FindById id] ++
                     [FindByIdAndUpdate id body])%list |}) /\
     (getBlog id (updateBlog id now body db).2).1 =
       Sent {| statusCode := 200;
               json := DataBody (Some {| _id := oid;
                                         fields := updated body now old |}) |})
  /\
  (forall r, (updateBlog id now body db).1 = Sent r -> statusCode r = 200 ->
     acceptableUpdate body).
Proof.
  intros Hid Hold. split.
  - intros Hok.
    assert (updateBlog id now body db =
       (Sent {| statusCode := 200;
                json := DataBody (Some {| _id := oid;
                                          fields := updated body now old |}) |},
        {| docs := <[oid := updated body now old]> (docs db);
           calls := (calls db ++ [FindById id] ++
                     [FindByIdAndUpdate id body])%list |})) as Hres.
    { rewrite (updateBlog_found id oid _ _ _ old) by done.
      rewrite (proj2 (castUpdate_inr body _) (conj Hok eq_refl)).
      by rewrite applyUpdate_updated. }
    split; [exact Hres|]. rewrite Hres. simpl.
    rewrite (getBlog_found id oid _ (updated body now old)); [done|done|].
    simpl. apply lookup_insert_eq.
  - intros r Hr H200.
    rewrite (updateBlog_found id oid _ _ _ old) in Hr by done.
    destruct (castUpdate body) as [errs|u] eqn:Hc.
    + simpl in Hr. injection Hr as <-. discriminate H200.
    + by apply castUpdate_inr in Hc as [Hok _].
Qed.

End Updates.

Lemma updateBlog_sets_given_fields_witness :
  @updateBlog Sample.hex24 Sample.ID1 50
    {| Body.title := Some " New title "; Body.description := None;
       Body.category := None; Body.status := None; Body.imageUrl := None |}
    Sample.blogs =
  (Sent {| statusCode := 200;
           json := DataBody (Some
             {| _id := Sample.id1;
                fields := updated
                  {| Body.title := Some " New title ";
                     Body.description := None; Body.category := None;
                     Body.status := None; Body.imageUrl := None |} 50
                  (Sample.post "A" "news" "draft" 10) |}) |},
   {| docs := <[Sample.id1 := updated
                  {| Body.title := Some " New title ";
                     Body.description := None; Body.category := None;
                     Body.status := None; Body.imageUrl := None |} 50
                  (Sample.post "A" "news" "draft" 10)]> (docs Sample.blogs);
      calls := [FindById Sample.ID1;
                FindByIdAndUpdate Sample.ID1
                  {| Body.title := Some " New title ";
                     Body.description := None; Body.category := None;
                     Body.status := None; Body.imageUrl := None |}] |}).
Proof.
  apply (@updateBlog_sets_given_fields Sample.hex24 Sample.ID1 Sample.id1 50 _
           Sample.blogs (Sample.post "A" "news" "draft" 10));
    [reflexivity|vm_compute; reflexivity|].
  split; [|repeat split; discriminate].
  intros ? [= <-]. split; [vm_compute; discriminate|vm_compute; lia].
Defined.

(** *** Round trips and invariants *)

Lemma newDocument_valid body now f :
  newDocument body now = inr f ->
  validFields f /\ createdAt f = now /\ updatedAt f = now.
Proof.
  intros (Ht & Hd & Hc & Hi & Hs & Hca & Hua)%newDocument_inr.
  apply checkTitle_inr in Ht as (rt & _ & _ & Ht1 & Ht2).
  apply checkText_inr in Hd as (rd & _ & _ & Hd1).
  apply checkText_inr in Hc as (rc & _ & _ & Hc1).
  apply checkText_inr in Hi as (ri & _ & _ & Hi1).
  assert (status f = "published" \/ status f = "draft") as Hst.
  { unfold checkStatus in Hs. destruct (Body.status body) as [s|].
    - by apply checkEnum_inr in Hs as (-> & Hs).
    - injection Hs as <-. by right. }
  by repeat split.
Qed.

Lemma setTo_valid v old :
  okText v -> old <> "" -> setTo v old <> "".
Proof.
  unfold okText, setTo. destruct v as [raw|]; [|done]. intros Hok _.
  by apply Hok.
Qed.

Lemma updated_valid body now old :
  acceptableUpdate body -> validFields old ->
  validFields (updated body now old).
Proof.
  intros (Hot & Hod & Hoc & Hoi & Hos) (Ht & Hl & Hd & Hc & Hi & Hs).
  unfold validFields, updated. simpl. repeat split.
  - unfold setTo. destruct (Body.title body) as [raw|]; [|done].
    by apply (Hot raw).
  - unfold setTo. destruct (Body.title body) as [raw|]; [|done].
    by apply (Hot raw).
  - by apply setTo_valid.
  - by apply setTo_valid.
  - by apply setTo_valid.
  - destruct (Body.status body) as [s|]; [by apply Hos|done].
Qed.

Lemma validCollection_insert db id f calls' :
  validCollection db -> validFields f ->
  validCollection {| docs := <[id := f]> (docs db); calls := calls' |}.
Proof.
  intros Hdb Hf id' f'. simpl. rewrite lookup_insert.
  case_decide; [by intros [= <-]|]. apply Hdb.
Qed.

Lemma validCollection_called db c :
  validCollection db -> validCollection (called c db).
Proof. intros Hdb id f. apply Hdb. Qed.

Lemma listed_iff query db b :
  listed query db b <-> stored db b /\ selects query b.
Proof.
  unfold listed. split.
  - intros (count & data & [= _ <-] & Hin).
    rewrite merge_sort_Permutation, list_elem_of_In, filter_In in Hin.
    rewrite <- list_elem_of_In, ListSpec.elem_of_documents in Hin.
    destruct Hin as [Hst Hm]. split; [done|].
    by apply ListSpec.matches_selects.
  - intros [Hst Hsel]. eexists _, _. split; [reflexivity|].
    rewrite merge_sort_Permutation, list_elem_of_In, filter_In.
    rewrite <- list_elem_of_In, ListSpec.elem_of_documents. split; [done|].
    by apply ListSpec.matches_selects.
Qed.

Section Composition.
Context `{ObjectIdFormat}.

(** X12.  Create, then Get.  When [createBlog] answers 201, the document
    of the answer carries the generated id, is stored, and a Get of that
    id, in any spelling the store casts to it, answers 200 with the same
    document on the resulting collection. *)
Theorem createBlog_then_getBlog oid now body db r :
  (createBlog oid now body db).1 = Sent r -> statusCode r = 201 ->
  exists b,
    r = {| statusCode := 201; json := DataBody (Some b) |} /\
    _id b = oid /\
    stored (createBlog oid now body db).2 b /\
    forall id, castObjectId id = Some oid ->
      (getBlog id (createBlog oid now body db).2).1
        = Sent {| statusCode := 200; json := DataBody (Some b) |}.
Proof.
  intros Hr H201.
  destruct (createBlog_cases oid now body db)
    as [Hc|[Hc|[(e & _ & Hc)|[(f & o & _ & _ & Hc)|(f & _ & _ & Hc)]]]];
    rewrite Hc in *; simpl in Hr; try discriminate Hr;
    injection Hr as <-; try discriminate H201.
  exists {| _id := oid; fields := f |}. simpl.
  split; [done|]. split; [done|]. split.
  - unfold stored. simpl. apply lookup_insert_eq.
  - intros id Hid.
    rewrite (getBlog_found id oid _ f); [done|done|].
    simpl. apply lookup_insert_eq.
Qed.

(** X13.  What Get answers.  [getBlog] answers 200 with a document
    exactly when the id is cast to an ObjectId and that document is the
    one stored under it.  Whatever it sends has status 200, 400 or 404;
    an id that is cast to an ObjectId is never answered 400, and the
    [catch] forwards to the middleware no error but one that is not a
    failed cast. *)
Theorem getBlog_answers_the_stored_document id db :
  (forall b,
     (getBlog id db).1 = Sent {| statusCode := 200; json := DataBody (Some b) |}
     <-> castObjectId id = Some (_id b) /\ stored db b) /\
  (forall r, (getBlog id db).1 = Sent r ->
     statusCode r = 200 \/ statusCode r = 400 \/ statusCode r = 404) /\
  (forall r, (getBlog id db).1 = Sent r -> statusCode r = 400 ->
     castObjectId id = None) /\
  (forall error e, catchLookup error = Next e ->
     e = error /\ name error <> "CastError").
Proof.
  assert (forall error e, catchLookup error = Next e ->
            e = error /\ name error <> "CastError") as Hcatch.
  { intros error e. unfold catchLookup.
    destruct (String.eqb_spec (name error) "CastError") as [He|He];
      [discriminate|]. by intros [= <-]. }
  destruct (castObjectId id) as [oid|] eqn:Hid.
  2:{ rewrite getBlog_malformed by done. simpl.
      split; [|split; [|split; [done|exact Hcatch]]].
      - intros b. split; [discriminate|]. by intros [? _].
      - intros r [= <-]. simpl. tauto. }
  destruct (docs db !! oid) as [f|] eqn:Hf.
  2:{ rewrite (getBlog_absent id oid) by done. simpl.
      split; [|split; [|split; [|exact Hcatch]]].
      - intros b. split; [discriminate|]. unfold stored.
        intros ([= ->] & Hst). congruence.
      - intros r [= <-]. simpl. tauto.
      - intros r [= <-]. discriminate. }
  rewrite (getBlog_found id oid _ f) by done. simpl.
  split; [|split; [|split; [|exact Hcatch]]].
  - intros b. unfold stored. split.
    + intros [= <-]. simpl. done.
    + intros ([= ->] & Hst). destruct b as [i g]. simpl in *.
      rewrite Hf in Hst. by injection Hst as <-.
  - intros r [= <-]. simpl. tauto.
  - intros r [= <-]. discriminate.
Qed.

(** X14.  The schema is an invariant of the collection, for requests
    whose body fields are each a string or missing.  When every stored
    document has a non-empty title of at most 100 UTF-16 code units, a
    non-empty description, category and imageUrl, and a status that is
    "published" or "draft", the same holds after [createBlog],
    [updateBlog] and [deleteBlog], whatever the id and these fields and
    however the handler answers. *)
Theorem handlers_keep_the_schema oid id now body db :
  validCollection db ->
  validCollection (createBlog oid now body db).2 /\
  validCollection (updateBlog id now body db).2 /\
  validCollection (deleteBlog id db).2.
Proof.
  intros Hdb. split; [|split].
  - destruct (createBlog_cases oid now body db)
      as [->|[->|[(e & _ & ->)|[(f & o & _ & _ & ->)|(f & Hdoc & _ & ->)]]]];
      simpl; try done.
    apply validCollection_insert; [done|].
    by apply newDocument_valid in Hdoc as [Hv _].
  - destruct (updateBlog_cases id now body db)
      as [(_ & ->)|[(k & _ & _ & ->)|[(k & o & e & _ & _ & _ & ->)|
          (k & o & u & _ & Ho & Hu & ->)]]]; simpl; try done.
    apply castUpdate_inr in Hu as (Hok & ->). rewrite applyUpdate_updated.
    apply validCollection_insert; [done|].
    apply updated_valid; [done|]. by apply (Hdb k).
  - destruct (deleteBlog_cases id db)
      as [(_ & ->)|[(k & _ & _ & ->)|(k & o & _ & _ & ->)]]; simpl; try done.
    intros id' f. simpl. rewrite lookup_delete.
    case_decide; [done|]. apply Hdb.
Qed.

(** X15.  The time stamps, for a body of the five fields, each a string
    or missing.  [updateBlog] never changes [createdAt], and
    when no stored document is older than its last update and the clock
    is not behind the creation time of the document updated (the one
    stored under the ObjectId the id is cast to), the same holds after
    [createBlog], [updateBlog] and [deleteBlog]. *)
Theorem handlers_keep_timestamps_ordered oid id now body db :
  timestampsOrdered db ->
  (forall k old, castObjectId id = Some k -> docs db !! k = Some old ->
     createdAt old <= now) ->
  (forall k old new, docs db !! k = Some old ->
     docs (updateBlog id now body db).2 !! k = Some new ->
     createdAt new = createdAt old) /\
  timestampsOrdered (createBlog oid now body db).2 /\
  timestampsOrdered (updateBlog id now body db).2 /\
  timestampsOrdered (deleteBlog id db).2.
Proof.
  intros Hdb Hclock. split; [|split; [|split]].
  - intros k old new Hold.
    destruct (updateBlog_cases id now body db)
      as [(_ & ->)|[(k' & _ & _ & ->)|[(k' & o & e & _ & _ & _ & ->)|
          (k' & o & u & _ & Ho & _ & ->)]]]; simpl; try congruence.
    rewrite lookup_insert. case_decide as Hk; [|congruence].
    subst k'. intros [= <-]. simpl. congruence.
  - destruct (createBlog_cases oid now body db)
      as [->|[->|[(e & _ & ->)|[(f & o & _ & _ & ->)|(f & Hdoc & _ & ->)]]]];
      simpl; try done.
    apply newDocument_valid in Hdoc as (_ & Hca & Hua).
    intros id' f'. simpl. rewrite lookup_insert.
    case_decide; [intros [= <-]; lia|apply Hdb].
  - destruct (updateBlog_cases id now body db)
      as [(_ & ->)|[(k & _ & _ & ->)|[(k & o & e & _ & _ & _ & ->)|
          (k & o & u & Hk & Ho & _ & ->)]]]; simpl; try done.
    intros id' f'. simpl. rewrite lookup_insert.
    case_decide; [intros [= <-]; simpl; by apply (Hclock k)|apply Hdb].
  - destruct (deleteBlog_cases id db)
      as [(_ & ->)|[(k & _ & _ & ->)|(k & o & _ & _ & ->)]]; simpl; try done.
    intros id' f'. simpl. rewrite lookup_delete.
    case_decide; [done|]. apply Hdb.
Qed.

(** X16.  The success flag agrees with the status code.  For each of the
    five blog handlers, with the error middleware behind it, the envelope
    the client receives has [success: true] exactly when the status is
    200 or 201. *)
Theorem blog_success_iff_2xx production oid id now body query db :
  let agrees (o : Outcome Blog) :=
    success (json (respond production o)) = true
    <-> is2xx (statusCode (respond production o)) in
  agrees (getBlogs query db).1 /\ agrees (getBlog id db).1 /\
  agrees (createBlog oid now body db).1 /\
  agrees (updateBlog id now body db).1 /\ agrees (deleteBlog id db).1.
Proof.
  simpl. unfold is2xx.
  assert (forall A B : Prop, A -> B -> (A <-> B)) as Hboth by tauto.
  assert (forall (b : bool) (B : Prop), b = false -> ~ B -> (b = true <-> B))
    as Hnone by (intros b B -> Hn; split; [discriminate|tauto]).
  split; [|split; [|split; [|split]]].
  - simpl. apply Hboth; [done|by left].
  - unfold getBlog, findById. destruct (castObjectId id) as [k|]; simpl.
    + destruct (docs db !! k); simpl.
      * apply Hboth; [done|by left].
      * apply Hnone; [done|intros [?|?]; discriminate].
    + apply Hnone; [done|intros [?|?]; discriminate].
  - destruct (createBlog_cases oid now body db)
      as [->|[->|[(e & _ & ->)|[(f & o & _ & _ & ->)|(f & _ & _ & ->)]]]];
      simpl.
    1-4: apply Hnone; [done|intros [?|?]; discriminate].
    apply Hboth; [done|by right].
  - destruct (updateBlog_cases id now body db)
      as [(_ & ->)|[(k & _ & _ & ->)|[(k & o & e & _ & _ & _ & ->)|
          (k & o & u & _ & _ & _ & ->)]]]; simpl.
    1-3: apply Hnone; [done|intros [?|?]; discriminate].
    apply Hboth; [done|by left].
  - destruct (deleteBlog_cases id db)
      as [(_ & ->)|[(k & _ & _ & ->)|(k & o & _ & _ & ->)]]; simpl.
    1-2: apply Hnone; [done|intros [?|?]; discriminate].
    apply Hboth; [done|by left].
Qed.

(** X17.  Listing after a change.  After a successful Delete the list
    for any query is the old one without the deleted document; after a
    Create that answers 201 it is the old one with the new document added
    when the document matches the query; after an Update that answers 200
    the document listed under its ObjectId is the updated one, when it
    matches.  Documents under other ObjectIds are listed as before in all
    three cases. *)
Theorem getBlogs_after_change oid id now body query db b :
  (forall r, (deleteBlog id db).1 = Sent r -> success (json r) = true ->
     (listed query (deleteBlog id db).2 b
      <-> listed query db b /\ castObjectId id <> Some (_id b))) /\
  (forall made,
     (createBlog oid now body db).1
       = Sent {| statusCode := 201; json := DataBody (Some made) |} ->
     (listed query (createBlog oid now body db).2 b
      <-> listed query db b \/ (b = made /\ selects query made))) /\
  (forall made,
     (updateBlog id now body db).1
       = Sent {| statusCode := 200; json := DataBody (Some made) |} ->
     castObjectId id = Some (_id made) /\
     (listed query (updateBlog id now body db).2 b
      <-> (listed query db b /\ castObjectId id <> Some (_id b)) \/
          (b = made /\ selects query made))).
Proof.
  assert (forall k f, k = _id b -> Some f = Some (fields b) ->
            b = {| _id := k; fields := f |}) as Hsame.
  { intros k f -> [= ->]. by destruct b. }
  split; [|split].
  - intros r Hr Hok. rewrite !listed_iff. unfold stored.
    destruct (deleteBlog_cases id db)
      as [(_ & Hc)|[(k & _ & _ & Hc)|(k & o & Hid & _ & Hc)]];
      rewrite Hc in *; simpl in Hr; injection Hr as <-;
      try discriminate Hok.
    simpl. rewrite lookup_delete, Hid. case_decide as Hk.
    + split; [intros [Hn _]; discriminate Hn|]. intros [_ Hne]. congruence.
    + split; [|tauto]. intros Hs. split; [done|congruence].
  - intros made Hr. rewrite !listed_iff. unfold stored.
    destruct (createBlog_cases oid now body db)
      as [Hc|[Hc|[(e & _ & Hc)|[(f & o & _ & _ & Hc)|(f & _ & Hfree & Hc)]]]];
      rewrite Hc in *; simpl in Hr; try discriminate Hr.
    injection Hr as <-. simpl. rewrite lookup_insert. case_decide as Hk.
    + split.
      * intros [Hf Hsel]. right. by rewrite <- (Hsame oid f Hk Hf).
      * intros [[Hst _]|[-> Hsel]]; [|done].
        rewrite <- Hk, Hfree in Hst. discriminate Hst.
    + split; [tauto|]. intros [?|[-> _]]; [done|]. simpl in Hk. done.
  - intros made Hr. rewrite !listed_iff. unfold stored.
    destruct (updateBlog_cases id now body db)
      as [(_ & Hc)|[(k & _ & _ & Hc)|[(k & o & e & _ & _ & _ & Hc)|
          (k & o & u & Hid & Ho & _ & Hc)]]];
      rewrite Hc in *; simpl in Hr; try discriminate Hr.
    injection Hr as <-. simpl. split; [exact Hid|].
    rewrite lookup_insert, Hid. case_decide as Hk.
    + split.
      * intros [Hf Hsel]. right. by rewrite <- (Hsame k _ Hk Hf).
      * intros [[_ Hne]|[-> Hsel]]; [congruence|done].
    + split.
      * intros Hs. left. split; [done|congruence].
      * intros [[? _]|[-> _]]; [done|]. simpl in Hk. done.
Qed.

End Composition.

(** X18.  With no filter the list is the whole collection: [count] is the
    number of stored documents, and an empty value for a filter counts as
    no filter. *)
Theorem getBlogs_unfiltered_count (status category : option string) db :
  (status = None \/ status = Some "") ->
  (category = None \/ category = Some "") ->
  exists data,
    (getBlogs {| Query.status := status; Query.category := category |} db).1
      = Sent {| statusCode := 200; json := ListBody (size (docs db)) data |} /\
    List.length data = size (docs db).
Proof.
  intros Hs Hc.
  assert (List.length
            (merge_sort newestFirst
               (List.filter
                  (matches
                     (castFilter
                        (filterOf {| Query.status := status;
                                     Query.category := category |})))
                  (documents db))) = size (docs db)) as Hlen.
  { rewrite merge_sort_Permutation.
    assert (List.filter
              (matches
                 (castFilter
                    (filterOf {| Query.status := status;
                                 Query.category := category |})))
              (documents db) = documents db) as ->.
    { apply forallb_filter_id, forallb_forall. intros b _.
      unfold matches, castFilter, filterOf. simpl.
      by destruct Hs as [-> | ->], Hc as [-> | ->]. }
    unfold documents. rewrite length_fmap. apply length_map_to_list. }
  eexists. unfold getBlogs, find. simpl.
  split; [|exact Hlen]. do 3 f_equal. exact Hlen.
Qed.

Lemma getBlogs_unfiltered_count_witness :
  exists data,
    (getBlogs {| Query.status := Some ""; Query.category := None |}
       Sample.blogs).1
      = Sent {| statusCode := 200;
                json := ListBody (size (docs Sample.blogs)) data |} /\
    List.length data = size (docs Sample.blogs).
Proof.
  apply (getBlogs_unfiltered_count (Some "") None Sample.blogs);
    [by right|by left].
Defined.

Lemma createBlog_then_getBlog_witness :
  exists b,
    {| statusCode := 201;
       json := DataBody (Some
         {| _id := Sample.id1;
            fields := {| title := "A"; description := "B"; category := "C";
                         imageUrl := "http://x/1.png"; status := "draft";
                         createdAt := 5; updatedAt := 5 |} |}) |}
    = {| statusCode := 201; json := DataBody (Some b) |} /\
    _id b = Sample.id1 /\
    stored (createBlog Sample.id1 5 Sample.draftBody Sample.empty).2 b /\
    forall id, @castObjectId Sample.hex24 id = Some Sample.id1 ->
      (@getBlog Sample.hex24 id
         (createBlog Sample.id1 5 Sample.draftBody Sample.empty).2).1
        = Sent {| statusCode := 200; json := DataBody (Some b) |}.
Proof.
  apply (@createBlog_then_getBlog Sample.hex24 Sample.id1 5 Sample.draftBody
           Sample.empty); reflexivity.
Defined.

(** The document created under [65f1...3b] is the one
    [GET /api/blog/65F1...3B] answers. *)
Example createBlog_then_getBlog_other_spelling :
  (@getBlog Sample.hex24 Sample.ID1
     (createBlog Sample.id1 5 Sample.draftBody Sample.empty).2).1
  = Sent {| statusCode := 200;
            json := DataBody (Some
              {| _id := Sample.id1;
                 fields := {| title := "A"; description := "B";
                              category := "C";
                              imageUrl := "http://x/1.png";
                              status := "draft";
                              createdAt := 5; updatedAt := 5 |} |}) |}.
Proof. reflexivity. Qed.

Lemma getBlog_answers_the_stored_document_witness :
  (@getBlog Sample.hex24 Sample.ID1 Sample.blogs).1
  = Sent {| statusCode := 200;
            json := DataBody (Some
              {| _id := Sample.id1;
                 fields := Sample.post "A" "news" "draft" 10 |}) |}.
Proof.
  apply (proj1 (@getBlog_answers_the_stored_document
                  Sample.hex24 Sample.ID1 Sample.blogs)).
  split; [reflexivity|vm_compute; reflexivity].
Defined.

Lemma sample_blogs_valid : validCollection Sample.blogs.
Proof.
  assert (map_Forall (fun (_ : string) f => validFields f)
            (docs Sample.blogs)) as Hall; [|exact Hall].
  unfold Sample.blogs. simpl.
  apply map_Forall_insert_2; [|apply map_Forall_insert_2;
    [|apply map_Forall_insert_2; [|apply map_Forall_empty]]];
    (split; [discriminate|split; [vm_compute; lia|split; [discriminate|
       split; [discriminate|split; [discriminate|
         (by left) || by right]]]]]).
Defined.

Lemma handlers_keep_the_schema_witness :
  validCollection
    (@updateBlog Sample.hex24 Sample.ID1 50 (Sample.onlyStatus "published")
       Sample.blogs).2.
Proof.
  apply (@handlers_keep_the_schema Sample.hex24 Sample.id2 Sample.ID1 50
           (Sample.onlyStatus "published") Sample.blogs sample_blogs_valid).
Defined.

Lemma handlers_keep_timestamps_ordered_witness :
  timestampsOrdered
    (@updateBlog Sample.hex24 Sample.ID1 50 (Sample.onlyStatus "published")
       Sample.blogs).2.
Proof.
  apply (@handlers_keep_timestamps_ordered Sample.hex24 Sample.id2 Sample.ID1
           50 (Sample.onlyStatus "published") Sample.blogs).
  - assert (map_Forall (fun (_ : string) f => createdAt f <= updatedAt f)
              (docs Sample.blogs)) as Hall; [|exact Hall].
    unfold Sample.blogs. simpl.
    apply map_Forall_insert_2; [|apply map_Forall_insert_2;
      [|apply map_Forall_insert_2; [|apply map_Forall_empty]]];
      unfold Sample.post; simpl; lia.
  - intros k old Hk Hold. vm_compute in Hk. injection Hk as <-.
    vm_compute in Hold. injection Hold as <-. simpl. lia.
Defined.

Lemma getBlogs_after_change_witness :
  listed {| Query.status := None; Query.category := None |}
    (@deleteBlog Sample.hex24 Sample.ID1 Sample.blogs).2
    {| _id := Sample.id2; fields := Sample.post "B" "trade" "published" 30 |}
  <-> listed {| Query.status := None; Query.category := None |} Sample.blogs
        {| _id := Sample.id2;
           fields := Sample.post "B" "trade" "published" 30 |} /\
      @castObjectId Sample.hex24 Sample.ID1 <> Some Sample.id2.
Proof.
  apply (proj1 (@getBlogs_after_change Sample.hex24 Sample.id1 Sample.ID1 5
                  Sample.draftBody
                  {| Query.status := None; Query.category := None |}
                  Sample.blogs
                  {| _id := Sample.id2;
                     fields := Sample.post "B" "trade" "published" 30 |})
           {| statusCode := 200; json := EmptyDataBody |});
    reflexivity.
Defined.

(** *** Trimmed paths *)

Section Strip.
Variables (two : ascii -> ascii -> bool)
  (three : ascii -> ascii -> ascii -> bool).

Lemma strip_clean l : startsClean two three (Js.strip two three l).
Proof.
  assert (forall n l, (List.length l <= n)%nat ->
            startsClean two three (Js.strip two three l)) as Hall;
    [|by apply (Hall (List.length l))].
  clear l. induction n as [|n IH]; intros l Hn.
  { destruct l; [done|simpl in Hn; lia]. }
  destruct l as [|a l1]; [done|]. simpl in Hn. simpl.
  destruct (Js.space1 a) eqn:Ha; [apply IH; lia|].
  destruct l1 as [|b l2]; [done|]. simpl in Hn.
  destruct (two a b) eqn:Hb; [apply IH; lia|].
  destruct l2 as [|c l3]; [done|]. simpl in Hn.
  destruct (three a b c) eqn:Hc; [apply IH; lia|].
  done.
Qed.

Lemma strip_fixed l : startsClean two three l -> Js.strip two three l = l.
Proof.
  destruct l as [|a l1]; [done|]. simpl. intros [-> Hl1].
  destruct l1 as [|b l2]; [done|]. destruct Hl1 as [-> Hl2].
  destruct l2 as [|c l3]; [done|]. by rewrite Hl2.
Qed.

Lemma strip_suffix l : exists spaces, l = (spaces ++ Js.strip two three l)%list.
Proof.
  assert (forall n l, (List.length l <= n)%nat ->
            exists spaces, l = (spaces ++ Js.strip two three l)%list) as Hall;
    [|by apply (Hall (List.length l))].
  clear l. induction n as [|n IH]; intros l Hn.
  { destruct l; [by exists []|simpl in Hn; lia]. }
  destruct l as [|a l1]; [by exists []|]. simpl in Hn. simpl.
  destruct (Js.space1 a) eqn:Ha.
  { destruct (IH l1) as [sp Hsp]; [lia|].
    exists (a :: sp). simpl. by rewrite <- Hsp. }
  destruct l1 as [|b l2]; [by exists []|]. simpl in Hn.
  destruct (two a b) eqn:Hb.
  { destruct (IH l2) as [sp Hsp]; [lia|].
    exists (a :: b :: sp). simpl. by rewrite <- Hsp. }
  destruct l2 as [|c l3]; [by exists []|]. simpl in Hn.
  destruct (three a b c) eqn:Hc.
  { destruct (IH l3) as [sp Hsp]; [lia|].
    exists (a :: b :: c :: sp). simpl. by rewrite <- Hsp. }
  by exists [].
Qed.

Lemma startsClean_prefix l rest :
  startsClean two three (l ++ rest) -> startsClean two three l.
Proof.
  destruct l as [|a [|b [|c l]]]; simpl; try done.
  - destruct rest; tauto.
  - destruct rest; tauto.
Qed.

End Strip.

Lemma trim_trimmed s : trimmed (Js.trim s).
Proof.
  unfold trimmed, Js.trim. rewrite list_ascii_of_string_of_list_ascii.
  set (a := Js.trimStart (list_ascii_of_string s)).
  assert (Js.trimStart (Js.trimEnd a) = Js.trimEnd a) as ->.
  { apply strip_fixed. unfold Js.trimEnd.
    destruct (strip_suffix (fun a b => Js.space2 b a)
                (fun a b c => Js.space3 c b a) (rev a)) as [sp Hsp].
    apply (startsClean_prefix _ _ _ (rev sp)).
    rewrite <- rev_app_distr, <- Hsp, rev_involutive.
    apply strip_clean. }
  f_equal. unfold Js.trimEnd. rewrite rev_involutive. f_equal.
  apply strip_fixed, strip_clean.
Qed.

Lemma setTo_trimmed v old : trimmed old -> trimmed (setTo v old).
Proof. destruct v as [raw|]; [intros _; apply trim_trimmed|done]. Qed.

Section Trimmed.
Context `{ObjectIdFormat}.

(** X19.  No stored text carries white space at either end.  The schema
    trims title, description, category and imageUrl on every write: when
    these four paths of every stored document are fixed by [trim], they
    still are after [createBlog], [updateBlog] and [deleteBlog]. *)
Theorem handlers_keep_paths_trimmed oid id now body db :
  trimmedCollection db ->
  trimmedCollection (createBlog oid now body db).2 /\
  trimmedCollection (updateBlog id now body db).2 /\
  trimmedCollection (deleteBlog id db).2.
Proof.
  intros Hdb. split; [|split].
  - destruct (createBlog_cases oid now body db)
      as [->|[->|[(e & _ & ->)|[(f & o & _ & _ & ->)|(f & Hdoc & _ & ->)]]]];
      simpl; try done.
    intros id' f'. simpl. rewrite lookup_insert.
    case_decide; [intros [= <-]|apply Hdb].
    apply newDocument_inr in Hdoc as (Ht & Hd & Hc & Hi & _).
    apply checkTitle_inr in Ht as (? & _ & Ht & _).
    apply checkText_inr in Hd as (? & _ & Hd & _).
    apply checkText_inr in Hc as (? & _ & Hc & _).
    apply checkText_inr in Hi as (? & _ & Hi & _).
    unfold trimmedFields. rewrite Ht, Hd, Hc, Hi.
    repeat split; apply trim_trimmed.
  - destruct (updateBlog_cases id now body db)
      as [(_ & ->)|[(k & _ & _ & ->)|[(k & o & e & _ & _ & _ & ->)|
          (k & o & u & _ & Ho & Hu & ->)]]]; simpl; try done.
    apply castUpdate_inr in Hu as (_ & ->). rewrite applyUpdate_updated.
    intros id' f'. simpl. rewrite lookup_insert.
    case_decide; [intros [= <-]|apply Hdb].
    destruct (Hdb k o Ho) as (Ht & Hd & Hc & Hi).
    unfold trimmedFields, updated. simpl.
    repeat split; by apply setTo_trimmed.
  - destruct (deleteBlog_cases id db)
      as [(_ & ->)|[(k & _ & _ & ->)|(k & o & _ & _ & ->)]]; simpl; try done.
    intros id' f'. simpl. rewrite lookup_delete.
    case_decide; [done|]. apply Hdb.
Qed.

End Trimmed.

Lemma handlers_keep_paths_trimmed_witness :
  trimmedCollection
    (createBlog Sample.id1 5
       {| Body.title := Some "  A "; Body.description := Some "B";
          Body.category := Some "C"; Body.status := Some "draft";
          Body.imageUrl := Some " http://x/1.png" |} Sample.empty).2.
Proof.
  apply (@handlers_keep_paths_trimmed Sample.hex24 Sample.id1 Sample.id1 5
           _ Sample.empty).
  intros id f Hf. simpl in Hf. by rewrite lookup_empty in Hf.
Defined.

End CollectionSpec.




(** ** Whether the server starts *)

Module ListeningSpec.
Import Startup StartupSpec ProbeSpec Schema.

Lemma tryPort_leaves_a_server l port : (tryPort l port).2 <> NotListening.
Proof.
  revert port. apply tryPort_ind_port. intros port IH.
  destruct (l port) as [|code] eqn:Hl.
  { by rewrite tryPort_free. }
  destruct (decide (code = Some "EADDRINUSE")) as [->|Hc].
  2:{ by rewrite (tryPort_other_error _ _ code). }
  destruct (Z_lt_dec port 65535) as [Hlt|Hge].
  - rewrite tryPort_in_use_next by done. simpl. by apply IH.
  - rewrite tryPort_in_use_last by (done || lia). done.
Qed.

(** X20.  The HTTP server is started exactly when the first connection
    attempt succeeds.  For a starting port that is a port number (1 to
    65535), after [startServer] and any sequence of callbacks that follows
    it (retry timers, errors, disconnects and connections reported by the
    driver), the server is neither listening nor exited if and only if the
    first attempt failed or never settled; when the first attempt
    succeeds, [startServer] schedules no retry and the server is, and
    stays, in the state the port probe left it in. *)
Theorem server_started_iff_first_attempt_succeeds w ticks :
  0 < initialPort w <= 65535 ->
  (server (Driver.run ticks (startServer w)) = NotListening
   <-> ~ exists later, connects w = true :: later) /\
  (forall later, connects w = true :: later ->
     server (Driver.run ticks (startServer w))
       = (tryPort (listen w) (initialPort w)).2 /\
     timers (startServer w) = [] /\ dbStatus (startServer w) = true /\
     events (startServer w)
       = (Verify (verify w) :: Connect true ::
          (tryPort (listen w) (initialPort w)).1)%list).
Proof.
  intros _. rewrite (proj2 (SequencerSpec.run_no_bind ticks (startServer w))).
  destruct w as [v cs l port].
  assert (forall later, cs = true :: later ->
     startServer {| verify := v; connects := cs; listen := l;
                    parsedPort := port |}
     = {| emailServerStatus := v; dbStatus := true; timers := [];
          server := (tryPort l (initialPort
            {| verify := v; connects := cs; listen := l;
               parsedPort := port |})).2;
          events := (Verify v :: Connect true ::
            (tryPort l (initialPort
               {| verify := v; connects := cs; listen := l;
                  parsedPort := port |})).1)%list |}) as Hok.
  { intros later ->. unfold startServer. simpl.
    by rewrite runTimers_no_timers. }
  split.
  - destruct cs as [|[|] later].
    + split; [intros _ [later Hl]; discriminate Hl|reflexivity].
    + rewrite (Hok later eq_refl). simpl. split.
      * intros Hn. by apply tryPort_leaves_a_server in Hn.
      * intros Hn. exfalso. apply Hn. by exists later.
    + split; [intros _ [l' Hl]; discriminate Hl|].
      intros _. apply (startServer_first_failure_never_binds v later l port).
  - intros later Hcs. simpl in Hcs. by rewrite (Hok later Hcs).
Qed.

Lemma server_started_iff_first_attempt_succeeds_witness :
  server (Driver.run [Driver.Disconnected false; Driver.TimerFires true]
            (startServer
               {| verify := false; connects := [true; false];
                  listen := Sample.busyBelow8002; parsedPort := None |}))
  = (tryPort Sample.busyBelow8002 8000).2.
Proof.
  destruct (server_started_iff_first_attempt_succeeds
              {| verify := false; connects := [true; false];
                 listen := Sample.busyBelow8002; parsedPort := None |}
              [Driver.Disconnected false; Driver.TimerFires true])
    as [_ Hstarted].
  - unfold initialPort. simpl. lia.
  - apply (Hstarted [false]). reflexivity.
Defined.

End ListeningSpec.

(** ** The error middleware and the contact form's validation *)

Module MiddlewareSpec.
Import Http Contact Notions ContactSpec.

(** X21.  [errorHandler] never answers 200 and never with [success:
    true].  A status a handler has set survives, the default 200 becomes
    500; the [error] field is never empty (an error without a message is
    reported as "Server Error"); the stack is given outside production
    and withheld in production. *)
Theorem errorHandler_never_succeeds (Doc : Type) production err resStatus :
  let r := @errorHandler Doc production err resStatus in
  statusCode r <> 200 /\
  (resStatus <> 200 -> statusCode r = resStatus) /\
  (resStatus = 200 -> statusCode r = 500) /\
  success (json r) = false /\
  exists error stack,
    json r = HandlerErrorBody error stack /\ error <> "" /\
    (Http.message err <> "" -> error = Http.message err) /\
    (stack = None <-> production = true).
Proof.
  simpl. unfold errorHandler. simpl.
  destruct (Z.eqb_spec resStatus 200) as [->|Hne].
  - split; [discriminate|]. split; [done|]. split; [done|]. split; [done|].
    eexists _, _. split; [reflexivity|].
    destruct (String.eqb_spec (Http.message err) "") as [He|He];
      (split; [done|split; [done|]]); destruct production; split; done.
  - split; [done|]. split; [done|]. split; [done|]. split; [done|].
    eexists _, _. split; [reflexivity|].
    destruct (String.eqb_spec (Http.message err) "") as [He|He];
      (split; [done|split; [done|]]); destruct production; split; done.
Qed.

(** X22.  The contact form's validation.  A submission in which name,
    email or message is missing or empty is answered 400 with the message
    that names the three fields, and the mail library is not called at
    all, whatever the relay would have done.  The phone is optional: a
    submission with the three fields is never answered with that error,
    with or without a phone. *)
Theorem contact_validation env nodemailer body :
  (In (name body) [None; Some ""] \/ In (email body) [None; Some ""] \/
   In (message body) [None; Some ""] ->
     submitContactForm env nodemailer body = (Sent MissingFields, []) /\
     statusCode MissingFields = 400 /\ success (json MissingFields) = false) /\
  (provided (name body) -> provided (email body) -> provided (message body) ->
     forall phone',
       (submitContactForm env nodemailer
          {| name := name body; email := email body; phone := phone';
             message := message body |}).1 <> Sent MissingFields).
Proof.
  split.
  - intros Hmiss. split; [|done]. apply submit_missing.
    intros (Hn & He & Hm). unfold provided in *.
    destruct Hmiss as [Hx|[Hx|Hx]]; simpl in Hx;
      destruct Hx as [Hx|[Hx|[]]]; rewrite <- Hx in *; discriminate.
  - intros Hn He Hm phone'. rewrite submit_provided by done. simpl.
    by destruct (nodemailer _ (adminMailOptions _ _)).
Qed.

Lemma contact_validation_witness :
  submitContactForm Sample.env Sample.relayUp
    {| name := Some "Ann"; email := Some "ann@example.org"; phone := None;
       message := Some "" |} = (Sent MissingFields, []) /\
  (submitContactForm Sample.env Sample.relayUp
     {| name := name Sample.ann; email := email Sample.ann;
        phone := Some "555"; message := message Sample.ann |}).1
    <> Sent MissingFields.
Proof.
  split.
  - apply (contact_validation Sample.env Sample.relayUp
             {| name := Some "Ann"; email := Some "ann@example.org";
                phone := None; message := Some "" |}).
    right; right. simpl. tauto.
  - apply (proj2 (contact_validation Sample.env Sample.relayUp Sample.ann));
      reflexivity.
Defined.

End MiddlewareSpec.
